(** * PiGame: the tile-world movement core of [PiGameTest1.py]

    A shallow embedding of the simulation part of the program (input
    intent, four-corner wall collision, world clamp, camera clamp, spawn
    selection, map construction) and the properties its specification
    states about it.

    Numbers are modelled the way Python has them: an [int] is an unbounded
    integer, a [float] is an IEEE-754 binary64 value (the Standard
    Library's [spec_float] at precision 53), and every operation that can
    raise does so through an explicit result type. *)

From Stdlib Require Import ZArith List Bool String Lia.
From Stdlib Require Import Floats.SpecFloat.
Import ListNotations.

Open Scope Z_scope.

(** ** Exceptions *)

Inductive exn : Type :=
| KeyError | IndexError | ValueError | OverflowError | ZeroDivisionError
| OtherException (class_name : string).

Inductive result (A : Type) : Type :=
| Ok (a : A)
| Raise (e : exn).

Arguments Ok {A} a.
Arguments Raise {A} e.

Definition bind {A B : Type} (c : result A) (k : A -> result B) : result B :=
  match c with
  | Ok a => k a
  | Raise e => Raise e
  end.

Notation "x <- c ;; k" := (bind c (fun x => k))
  (at level 61, c at next level, right associativity).
Notation "' p <- c ;; k" := (bind c (fun p => k))
  (at level 61, p pattern, c at next level, right associativity).

(** ** Python numbers *)

Module Py.

Definition prec : Z := 53.
Definition emax : Z := 1024.

(** A number is an int or a float.  A float is meant to be a valid
    binary64 value ([valid_binary] at [prec] and [emax]); the IEEE
    operations below return such values. *)
Inductive num : Type :=
| PInt (z : Z)
| PFloat (f : spec_float).

(** [float(z)]: round to nearest even, [OverflowError] beyond the range. *)
Definition float_of_int (z : Z) : result spec_float :=
  match binary_normalize prec emax z 0 false with
  | S754_infinity _ => Raise OverflowError
  | f => Ok f
  end.

Definition to_float (n : num) : result spec_float :=
  match n with
  | PInt z => float_of_int z
  | PFloat f => Ok f
  end.

(** Binary [+], [-], [*]: exact on two ints, otherwise both operands are
    converted to float and the IEEE operation is applied. *)
Definition arith (fz : Z -> Z -> Z)
           (ff : spec_float -> spec_float -> spec_float)
           (a b : num) : result num :=
  match a, b with
  | PInt x, PInt y => Ok (PInt (fz x y))
  | _, _ => x <- to_float a ;; y <- to_float b ;; Ok (PFloat (ff x y))
  end.

Definition add : num -> num -> result num := arith Z.add (SFadd prec emax).
Definition sub : num -> num -> result num := arith Z.sub (SFsub prec emax).
Definition mul : num -> num -> result num := arith Z.mul (SFmul prec emax).

Definition is_finite (f : spec_float) : bool :=
  match f with
  | S754_zero _ | S754_finite _ _ _ => true
  | _ => false
  end.

(** [x ** 2].  On ints it is exact.  On floats CPython calls the C [pow]
    and raises [OverflowError] when a finite operand overflows; the
    square is taken here as the correctly rounded product, which is what
    [pow] returns whenever the square is representable (the case for
    every value [handle_input] stores). *)
Definition pow2 (a : num) : result num :=
  match a with
  | PInt z => Ok (PInt (z * z))
  | PFloat f =>
      let r := SFmul prec emax f f in
      if is_finite f && negb (is_finite r) then Raise OverflowError
      else Ok (PFloat r)
  end.

(** [math.sqrt]: [ValueError] below zero, NaN and +inf pass through. *)
Definition sqrt (a : num) : result spec_float :=
  f <- to_float a ;;
  match f with
  | S754_finite true _ _ | S754_infinity true => Raise ValueError
  | _ => Ok (SFsqrt prec emax f)
  end.

(** [x / y] on two floats. *)
Definition truediv (x y : spec_float) : result spec_float :=
  match y with
  | S754_zero _ => Raise ZeroDivisionError
  | _ => Ok (SFdiv prec emax x y)
  end.

(** Comparison.  Two floats compare as IEEE says (NaN is unordered); an
    int and a float are compared exactly, on their mathematical values,
    as CPython does. *)
Definition compare_int_float (z : Z) (f : spec_float) : option comparison :=
  match f with
  | S754_nan => None
  | S754_infinity s => Some (if s then Gt else Lt)
  | S754_zero _ => Some (z ?= 0)
  | S754_finite s m e =>
      let sm := cond_Zopp s (Zpos m) in
      Some (if 0 <=? e then z ?= sm * 2 ^ e else z * 2 ^ (- e) ?= sm)
  end.

Definition compare (a b : num) : option comparison :=
  match a, b with
  | PInt x, PInt y => Some (x ?= y)
  | PInt x, PFloat g => compare_int_float x g
  | PFloat f, PInt y => option_map CompOpp (compare_int_float y f)
  | PFloat f, PFloat g => SFcompare f g
  end.

Definition lt (a b : num) : bool :=
  match compare a b with Some Lt => true | _ => false end.
Definition gt (a b : num) : bool :=
  match compare a b with Some Gt => true | _ => false end.
Definition le (a b : num) : bool :=
  match compare a b with Some (Lt | Eq) => true | _ => false end.
Definition ge (a b : num) : bool :=
  match compare a b with Some (Gt | Eq) => true | _ => false end.
Definition eq (a b : num) : bool :=
  match compare a b with Some Eq => true | _ => false end.
Definition ne (a b : num) : bool := negb (eq a b).

(** The builtins [min(a, b)] and [max(a, b)]: the first argument is kept
    unless the second one is strictly smaller (larger). *)
Definition min (a b : num) : num := if lt b a then b else a.
Definition max (a b : num) : num := if gt b a then b else a.

(** [int(x // d)] for a positive int [d].  On an int it is the floor
    quotient.  On a finite float [(-1)^s * m * 2^e] CPython computes
    [x // d] as [(x - fmod(x, d)) / d] with a correction by one for a
    negative remainder; for [d] a power of two every step is exact, the
    float result is the floor of the mathematical quotient and [int]
    returns it.  On an infinity or a NaN [x // d] is NaN and [int]
    raises [ValueError]. *)
Definition int_floordiv (x : num) (d : Z) : result Z :=
  match x with
  | PInt z => if d =? 0 then Raise ZeroDivisionError else Ok (z / d)
  | PFloat f =>
      if d =? 0 then Raise ZeroDivisionError else
      match f with
      | S754_zero _ => Ok 0
      | S754_finite s m e =>
          let sm := cond_Zopp s (Zpos m) in
          Ok (if 0 <=? e then (sm * 2 ^ e) / d else sm / (2 ^ (- e) * d))
      | _ => Raise ValueError
      end
  end.

(** A float literal with an integral value. *)
Definition lit (z : Z) : spec_float := binary_normalize prec emax z 0 false.

(** Unary minus. *)
Definition neg (a : num) : num :=
  match a with
  | PInt z => PInt (- z)
  | PFloat f => PFloat (SFopp f)
  end.

(** [a / b] on two ints: the correctly rounded quotient, a signed zero
    for a zero numerator, [OverflowError] when the quotient is too large
    for a float. *)
Definition int_truediv (a b : Z) : result spec_float :=
  if b =? 0 then Raise ZeroDivisionError
  else if a =? 0 then Ok (S754_zero (b <? 0))
  else
    match SFdiv prec emax
            (S754_finite (a <? 0) (Z.to_pos (Z.abs a)) 0)
            (S754_finite (b <? 0) (Z.to_pos (Z.abs b)) 0) with
    | S754_infinity _ => Raise OverflowError
    | f => Ok f
    end.

(** [a / b] on numbers: two ints are divided exactly and rounded once;
    otherwise both operands are converted to float. *)
Definition div (a b : num) : result spec_float :=
  match a, b with
  | PInt x, PInt y => int_truediv x y
  | _, _ => x <- to_float a ;; y <- to_float b ;; truediv x y
  end.

(** [math.floor]: an int is returned as it is; a float gives the
    largest int not above it, a NaN raises [ValueError] and an infinity
    [OverflowError]. *)
Definition math_floor (a : num) : result Z :=
  match a with
  | PInt z => Ok z
  | PFloat f =>
      match f with
      | S754_zero _ => Ok 0
      | S754_finite s m e =>
          let sm := cond_Zopp s (Zpos m) in
          Ok (if 0 <=? e then sm * 2 ^ e else sm / 2 ^ (- e))
      | S754_nan => Raise ValueError
      | S754_infinity _ => Raise OverflowError
      end
  end.

End Py.

(** ** Configuration *)

Definition SCREEN_WIDTH : Z := 640.
Definition SCREEN_HEIGHT : Z := 480.
Definition TILE_SIZE : Z := 32.

Definition WALK_SPEED : spec_float := Eval vm_compute in Py.lit 2.
Definition SPRINT_SPEED : spec_float := Eval vm_compute in Py.lit 4.

Definition CAMERA_X : Z := SCREEN_WIDTH / 2.
Definition CAMERA_Y : Z := SCREEN_HEIGHT / 2.

Definition ASSET_FOLDER : string :=
  "C:\Users\graz\Pictures\Game\Player\temp\Basic"%string.

(** ** Sprite loading *)

(** What the [try] block of [load_sprite] comes to on a path: the image
    is read, converted and scaled; or one of the pygame calls raises
    [pygame.error], with its message; or an exception of another class
    is raised, which [load_sprite] does not catch. *)
Inductive loading : Type :=
| Image
| PygameError (message : string)
| Escapes (e : exn).

(** The operating system and pygame, as far as [load_sprite] uses them:
    [os.path.join], the outcome of loading the file at a path, and the
    exception that building the red replacement square raises, if any. *)
Record platform : Type := {
  os_path_join : string -> string -> string;
  image_load : string -> loading;
  missing_sprite : option exn
}.

(** A surface: the scaled image read from a path, or the red square. *)
Inductive surface : Type :=
| Sprite (path : string)
| RedSquare.

(** [load_sprite]: the lines printed, and the surface returned or the
    exception raised. *)
Definition load_sprite (pf : platform) (filename : string)
  : list string * result surface :=
  let path := os_path_join pf ASSET_FOLDER filename in
  match image_load pf path with
  | Image => ([], Ok (Sprite path))
  | PygameError message =>
      let lines :=
        [("Error loading image at path: " ++ path)%string;
         ("Pygame error: " ++ message)%string] in
      match missing_sprite pf with
      | None => (lines, Ok RedSquare)
      | Some e => (lines, Raise e)
      end
  | Escapes e => ([], Raise e)
  end.

(** ** InputManager *)

Module InputManager.

(** [action_state]: the dictionary from action names to booleans. *)
Record t : Type := { action_state : list (string * bool) }.

Fixpoint get (d : list (string * bool)) (k : string) (default : bool) : bool :=
  match d with
  | [] => default
  | (k', v) :: d' => if String.eqb k' k then v else get d' k default
  end.

Definition is_pressed (self : t) (action : string) : bool :=
  get (action_state self) action false.

(** The physical keys that [key_map] binds, under pygame's names. *)
Inductive key : Type :=
| K_UP | K_w | K_DOWN | K_s | K_LEFT | K_a | K_RIGHT | K_d
| K_LSHIFT | K_RSHIFT | K_SPACE | K_y.

(** [self.key_map], in the order of the dictionary literal. *)
Definition key_map : list (key * string) :=
  [(K_UP, "up"%string); (K_w, "up"%string);
   (K_DOWN, "down"%string); (K_s, "down"%string);
   (K_LEFT, "left"%string); (K_a, "left"%string);
   (K_RIGHT, "right"%string); (K_d, "right"%string);
   (K_LSHIFT, "sprint"%string); (K_RSHIFT, "sprint"%string);
   (K_SPACE, "action_a"%string); (K_y, "action_y"%string)].

(** [InputManager.__init__]: every action starts inactive. *)
Definition __init__ : t :=
  {| action_state :=
       [("up"%string, false); ("down"%string, false); ("left"%string, false);
        ("right"%string, false); ("sprint"%string, false);
        ("action_a"%string, false); ("action_y"%string, false)] |}.

(** [d[k] = v] on a dictionary: an existing key keeps its place, a new
    one goes last. *)
Fixpoint setitem (d : list (string * bool)) (k : string) (v : bool)
  : list (string * bool) :=
  match d with
  | [] => [(k, v)]
  | (k', v') :: d' =>
      if String.eqb k' k then (k', v) :: d' else (k', v') :: setitem d' k v
  end.

(** [InputManager.update]: [keys] is the snapshot returned by
    [pygame.key.get_pressed()].  Every action of the dictionary is reset,
    then each binding whose key is down activates its action. *)
Definition update (self : t) (keys : key -> bool) : t :=
  let state :=
    fold_left (fun state action => setitem state action false)
      (map fst (action_state self)) (action_state self) in
  let state :=
    fold_left
      (fun state binding =>
         if keys (fst binding) then setitem state (snd binding) true else state)
      key_map state in
  {| action_state := state |}.

End InputManager.

(** ** The imported module [map_data]

    The program reads five tile codes and the table of named maps from
    the module [map_data].  They are parameters of this development,
    gathered in one record that stands for the module. *)

Record map_data : Type := {
  GRASS : Z;
  WALL : Z;
  STAIRS : Z;
  DOOR : Z;
  SPAWN : Z;
  MAP_COLLECTION : list (string * list (list Z))
}.

(** ** Map *)

Module Map.

Record t : Type := {
  map_array : list (list Z);
  height : Z;
  width : Z
}.

(** [d[k]] on a dictionary. *)
Fixpoint getitem (d : list (string * list (list Z))) (k : string)
  : result (list (list Z)) :=
  match d with
  | [] => Raise KeyError
  | (k', v) :: d' => if String.eqb k' k then Ok v else getitem d' k
  end.

(** *** The tile sprites *)

(** [TILE_ASSETS]: the sprite file of each tile code, a dictionary built
    from its literal, entry by entry. *)
Fixpoint assets_set (d : list (Z * string)) (k : Z) (v : string)
  : list (Z * string) :=
  match d with
  | [] => [(k, v)]
  | (k', v') :: d' =>
      if k' =? k then (k', v) :: d' else (k', v') :: assets_set d' k v
  end.

Fixpoint assets_get (d : list (Z * string)) (k : Z) : option string :=
  match d with
  | [] => None
  | (k', v) :: d' => if k' =? k then Some v else assets_get d' k
  end.

Definition TILE_ASSETS (md : map_data) : list (Z * string) :=
  assets_set
    (assets_set
       (assets_set
          (assets_set
             (assets_set [] (GRASS md) "grass.png")
             (WALL md) "wall.png")
          (STAIRS md) "stairs.png")
       (DOOR md) "door.png")
    (SPAWN md) "spawn.png".

(** [load_map_tiles]: one sprite per entry of [TILE_ASSETS].  A sprite is
    named here by the file [load_sprite] was asked for; the surface
    itself belongs to the rendering side. *)
Definition load_map_tiles (md : map_data) : list (Z * string) :=
  fold_left (fun sprites entry => assets_set sprites (fst entry) (snd entry))
    (TILE_ASSETS md) [].

(** [sprites[code] = image] on the dictionary that [load_map_tiles]
    fills. *)
Fixpoint sprites_set (d : list (Z * surface)) (k : Z) (v : surface)
  : list (Z * surface) :=
  match d with
  | [] => [(k, v)]
  | (k', v') :: d' =>
      if k' =? k then (k', v) :: d' else (k', v') :: sprites_set d' k v
  end.

(** The loop of [load_map_tiles] as it runs: the lines that the calls of
    [load_sprite] print, and the dictionary filled or the exception that
    ended the loop. *)
Fixpoint load_map_tiles_from (pf : platform) (entries : list (Z * string))
         (sprites : list (Z * surface))
  : list string * result (list (Z * surface)) :=
  match entries with
  | [] => ([], Ok sprites)
  | (code, filename) :: entries' =>
      match load_sprite pf filename with
      | (lines, Raise e) => (lines, Raise e)
      | (lines, Ok image) =>
          let (lines', outcome) :=
            load_map_tiles_from pf entries' (sprites_set sprites code image) in
          ((lines ++ lines')%list, outcome)
      end
  end.

(** The call [self.load_map_tiles()]. *)
Definition load_map_tiles_run (pf : platform) (md : map_data)
  : list string * result (list (Z * surface)) :=
  load_map_tiles_from pf (TILE_ASSETS md) [].

(** *** Construction *)

(** [Map.__init__]: the grid is looked up by name ([KeyError] for an
    unknown name), the height is the number of rows, the width is the
    length of the first row ([IndexError] for a grid without rows), and
    then the tile sprites are loaded, which prints and can raise.  The
    result is the lines printed, and the map or the exception.  The
    dictionary of sprites is not a field of [t]: [draw] looks a tile
    code up in [load_map_tiles], which has an entry for the same
    codes. *)
Definition __init__ (pf : platform) (md : map_data) (map_name : string)
  : list string * result t :=
  match getitem (MAP_COLLECTION md) map_name with
  | Raise e => ([], Raise e)
  | Ok map_array =>
      let height := Z.of_nat (List.length map_array) in
      match map_array with
      | [] => ([], Raise IndexError)
      | row0 :: _ =>
          let width := Z.of_nat (List.length row0) in
          let (lines, tile_sprites) := load_map_tiles_run pf md in
          (lines,
           _ <- tile_sprites ;;
           Ok {| map_array := map_array;
                 height := height;
                 width := width |})
      end
  end.

(** [map_array[ty][tx]] for indices already known to be non-negative. *)
Definition tile (self : t) (ty tx : Z) : result Z :=
  match nth_error (map_array self) (Z.to_nat ty) with
  | None => Raise IndexError
  | Some row =>
      match nth_error row (Z.to_nat tx) with
      | None => Raise IndexError
      | Some tile_code => Ok tile_code
      end
  end.

(** *** Drawing *)

Definition cols_visible : Z := SCREEN_WIDTH / TILE_SIZE + 1.
Definition rows_visible : Z := SCREEN_HEIGHT / TILE_SIZE + 1.

(** [max(0, math.floor(-camera_offset / TILE_SIZE))]. *)
Definition start_index (camera_offset : Py.num) : result Z :=
  q <- Py.div (Py.neg camera_offset) (Py.PInt TILE_SIZE) ;;
  f <- Py.math_floor (Py.PFloat q) ;;
  Ok (Z.max 0 f).

(** [range(a, b)]. *)
Definition range (a b : Z) : list Z :=
  map (fun i => a + Z.of_nat i) (seq 0 (Z.to_nat (b - a))).

(** A call [screen.blit(tile_image, (x, y))]. *)
Definition blit : Type := string * Py.num * Py.num.

(** The body of the inner loop for one cell: the blit it makes, if any. *)
Definition draw_cell (md : map_data) (self : t)
           (camera_offset_x camera_offset_y : Py.num) (row_index col_index : Z)
  : result (list blit) :=
  tile_code <- tile self row_index col_index ;;
  x <- Py.add (Py.PInt (col_index * TILE_SIZE)) camera_offset_x ;;
  y <- Py.add (Py.PInt (row_index * TILE_SIZE)) camera_offset_y ;;
  match assets_get (load_map_tiles md) tile_code with
  | Some tile_image => Ok [(tile_image, x, y)]
  | None => Ok []
  end.

(** The two nested loops, over the cells in the order they are visited:
    the blits made, and the exception that stopped the loops, if any. *)
Fixpoint draw_cells (md : map_data) (self : t)
         (camera_offset_x camera_offset_y : Py.num) (cells : list (Z * Z))
  : list blit * option exn :=
  match cells with
  | [] => ([], None)
  | (row_index, col_index) :: cells' =>
      match draw_cell md self camera_offset_x camera_offset_y row_index col_index with
      | Raise e => ([], Some e)
      | Ok made =>
          let (rest, stopped) :=
            draw_cells md self camera_offset_x camera_offset_y cells' in
          (made ++ rest, stopped)
      end
  end.

(** The cells of the window, row by row. *)
Definition window (start_row end_row start_col end_col : Z) : list (Z * Z) :=
  flat_map (fun row_index => map (fun col_index => (row_index, col_index))
                               (range start_col end_col))
    (range start_row end_row).

(** [Map.draw]: the blits made on [screen], in order, and the exception
    that ended the call, if any. *)
Definition draw (md : map_data) (self : t) (camera_offset_x camera_offset_y : Py.num)
  : list blit * option exn :=
  match start_index camera_offset_y with
  | Raise e => ([], Some e)
  | Ok start_row =>
      match start_index camera_offset_x with
      | Raise e => ([], Some e)
      | Ok start_col =>
          let end_row := Z.min (height self) (start_row + rows_visible) in
          let end_col := Z.min (width self) (start_col + cols_visible) in
          draw_cells md self camera_offset_x camera_offset_y
            (window start_row end_row start_col end_col)
      end
  end.

End Map.

(** ** Spawn selection *)

Section Spawn.

(** The random source: [randbelow s n] is [random._randbelow(n)] run
    from generator state [s], with the state it leaves. *)
Variable rng : Type.
Variable randbelow : rng -> nat -> nat * rng.

Variable md : map_data.

(** The inner loop over [enumerate(row)]. *)
Fixpoint scan_row (row : list Z) (col_index row_index : Z) : list (Z * Z) :=
  match row with
  | [] => []
  | tile_code :: row' =>
      (if tile_code =? SPAWN md
       then [(col_index * TILE_SIZE, row_index * TILE_SIZE)]
       else [])
      ++ scan_row row' (col_index + 1) row_index
  end.

(** The outer loop over [enumerate(map_instance.map_array)]. *)
Fixpoint scan_rows (rows : list (list Z)) (row_index : Z) : list (Z * Z) :=
  match rows with
  | [] => []
  | row :: rows' => scan_row row 0 row_index ++ scan_rows rows' (row_index + 1)
  end.

Definition spawn_points (map_instance : Map.t) : list (Z * Z) :=
  scan_rows (Map.map_array map_instance) 0.

Definition no_spawn_warning : string :=
  "Warning: No SPAWN tiles found. Starting at (0, 0) in world coordinates.".

(** [random.choice(seq)] is [seq[randbelow(len(seq))]]. *)
Definition choice (s : rng) (seq : list (Z * Z)) : result ((Z * Z) * rng) :=
  let (i, s') := randbelow s (List.length seq) in
  match nth_error seq i with
  | Some pt => Ok (pt, s')
  | None => Raise IndexError
  end.

(** [get_random_spawn_point]: the chosen pixel coordinate, the state of
    the random source afterwards and the lines printed. *)
Definition get_random_spawn_point (map_instance : Map.t) (s : rng)
  : result ((Z * Z) * rng * list string) :=
  let spawn_points := spawn_points map_instance in
  match spawn_points with
  | [] => Ok ((0, 0), s, [no_spawn_warning])
  | _ => ' (pt, s') <- choice s spawn_points ;; Ok (pt, s', [])
  end.

End Spawn.

(** ** Player *)

Module Player.

Inductive direction : Type := up | down | left | right.

(** The attributes the simulation reads and writes.  [rect_width] and
    [rect_height] are the size of [self.rect], the rectangle of the
    sprite image, which [load_sprite] always makes [TILE_SIZE] square. *)
Record t : Type := {
  world_x : Py.num;
  world_y : Py.num;
  current_map : Map.t;
  walk_speed : spec_float;
  sprint_speed : spec_float;
  current_speed : spec_float;
  current_direction : direction;
  rect_width : Z;
  rect_height : Z;
  change_x : Py.num;
  change_y : Py.num
}.

Definition __init__ (x y : Py.num) (current_map : Map.t) : t :=
  {| world_x := x;
     world_y := y;
     current_map := current_map;
     walk_speed := WALK_SPEED;
     sprint_speed := SPRINT_SPEED;
     current_speed := WALK_SPEED;
     current_direction := down;
     rect_width := TILE_SIZE;
     rect_height := TILE_SIZE;
     change_x := Py.PInt 0;
     change_y := Py.PInt 0 |}.

Definition set_world_x (self : t) (v : Py.num) : t :=
  {| world_x := v;
     world_y := world_y self;
     current_map := current_map self;
     walk_speed := walk_speed self;
     sprint_speed := sprint_speed self;
     current_speed := current_speed self;
     current_direction := current_direction self;
     rect_width := rect_width self;
     rect_height := rect_height self;
     change_x := change_x self;
     change_y := change_y self |}.

Definition set_world_y (self : t) (v : Py.num) : t :=
  {| world_x := world_x self;
     world_y := v;
     current_map := current_map self;
     walk_speed := walk_speed self;
     sprint_speed := sprint_speed self;
     current_speed := current_speed self;
     current_direction := current_direction self;
     rect_width := rect_width self;
     rect_height := rect_height self;
     change_x := change_x self;
     change_y := change_y self |}.

Definition set_current_speed (self : t) (v : spec_float) : t :=
  {| world_x := world_x self;
     world_y := world_y self;
     current_map := current_map self;
     walk_speed := walk_speed self;
     sprint_speed := sprint_speed self;
     current_speed := v;
     current_direction := current_direction self;
     rect_width := rect_width self;
     rect_height := rect_height self;
     change_x := change_x self;
     change_y := change_y self |}.

Definition set_current_direction (self : t) (v : direction) : t :=
  {| world_x := world_x self;
     world_y := world_y self;
     current_map := current_map self;
     walk_speed := walk_speed self;
     sprint_speed := sprint_speed self;
     current_speed := current_speed self;
     current_direction := v;
     rect_width := rect_width self;
     rect_height := rect_height self;
     change_x := change_x self;
     change_y := change_y self |}.

Definition set_change_x (self : t) (v : Py.num) : t :=
  {| world_x := world_x self;
     world_y := world_y self;
     current_map := current_map self;
     walk_speed := walk_speed self;
     sprint_speed := sprint_speed self;
     current_speed := current_speed self;
     current_direction := current_direction self;
     rect_width := rect_width self;
     rect_height := rect_height self;
     change_x := v;
     change_y := change_y self |}.

Definition set_change_y (self : t) (v : Py.num) : t :=
  {| world_x := world_x self;
     world_y := world_y self;
     current_map := current_map self;
     walk_speed := walk_speed self;
     sprint_speed := sprint_speed self;
     current_speed := current_speed self;
     current_direction := current_direction self;
     rect_width := rect_width self;
     rect_height := rect_height self;
     change_x := change_x self;
     change_y := v |}.

(** *** [handle_input]

    Returns the player and the lines printed for the action buttons. *)
Definition handle_input (self : t) (input_manager : InputManager.t)
  : t * list string :=
  let pressed := InputManager.is_pressed input_manager in
  let self :=
    if pressed "sprint"%string
    then set_current_speed self (sprint_speed self)
    else set_current_speed self (walk_speed self) in
  let self := set_change_x self (Py.PInt 0) in
  let self := set_change_y self (Py.PInt 0) in
  let self :=
    if pressed "left"%string
    then set_current_direction
           (set_change_x self (Py.PFloat (SFopp (current_speed self)))) left
    else self in
  let self :=
    if pressed "right"%string
    then set_current_direction
           (set_change_x self (Py.PFloat (current_speed self))) right
    else self in
  let self :=
    if pressed "up"%string
    then set_current_direction
           (set_change_y self (Py.PFloat (SFopp (current_speed self)))) up
    else self in
  let self :=
    if pressed "down"%string
    then set_current_direction
           (set_change_y self (Py.PFloat (current_speed self))) down
    else self in
  (self,
   (if pressed "action_a"%string then ["Action Button (A) Pressed!"%string] else [])
   ++ (if pressed "action_y"%string then ["Use Button (Y) Pressed!"%string] else [])).

Section WithMapData.

Variable md : map_data.

(** *** [_check_collision] *)

(** The loop over the four sampled tiles: the first in-bounds wall
    returns [True]; reading a cell the row does not have raises. *)
Fixpoint scan_corners (m : Map.t) (corners : list (Z * Z)) : result bool :=
  match corners with
  | [] => Ok false
  | (tx, ty) :: rest =>
      if (0 <=? ty) && (ty <? Map.height m) && (0 <=? tx) && (tx <? Map.width m)
      then
        tile_code <- Map.tile m ty tx ;;
        if tile_code =? WALL md then Ok true else scan_corners m rest
      else scan_corners m rest
  end.

Definition _check_collision (self : t) (next_x next_y : Py.num) : result bool :=
  tile_x1 <- Py.int_floordiv next_x TILE_SIZE ;;
  tile_y1 <- Py.int_floordiv next_y TILE_SIZE ;;
  x_far <- (s <- Py.add next_x (Py.PInt (rect_width self)) ;;
            Py.sub s (Py.PInt 1)) ;;
  tile_x2 <- Py.int_floordiv x_far TILE_SIZE ;;
  y_far <- (s <- Py.add next_y (Py.PInt (rect_height self)) ;;
            Py.sub s (Py.PInt 1)) ;;
  tile_y2 <- Py.int_floordiv y_far TILE_SIZE ;;
  scan_corners (current_map self)
    [(tile_x1, tile_y1); (tile_x1, tile_y2); (tile_x2, tile_y1); (tile_x2, tile_y2)].

(** *** [update] *)

(** Lines 222-232: the displacement [(dx, dy)] of this tick and whether
    the squared intent [mag_sq] is positive, the condition under which
    the displacement is applied. *)
Definition displacement (self : t) : result (Py.num * Py.num * bool) :=
  cx2 <- Py.pow2 (change_x self) ;;
  cy2 <- Py.pow2 (change_y self) ;;
  mag_sq <- Py.add cx2 cy2 ;;
  if Py.gt mag_sq (Py.PInt 0)
  then
    if Py.ne (change_x self) (Py.PInt 0) && Py.ne (change_y self) (Py.PInt 0)
    then
      root <- Py.sqrt mag_sq ;;
      scaling_factor <- Py.truediv (current_speed self) root ;;
      dx <- Py.mul (change_x self) (Py.PFloat scaling_factor) ;;
      dy <- Py.mul (change_y self) (Py.PFloat scaling_factor) ;;
      Ok (dx, dy, true)
    else Ok (change_x self, change_y self, true)
  else Ok (Py.PInt 0, Py.PInt 0, false).

(** Lines 234-238: each axis is tried on its own. *)
Definition move (self : t) (dx dy : Py.num) : result t :=
  next_x <- Py.add (world_x self) dx ;;
  blocked_x <- _check_collision self next_x (world_y self) ;;
  self <- (if negb blocked_x
           then (v <- Py.add (world_x self) dx ;; Ok (set_world_x self v))
           else Ok self) ;;
  next_y <- Py.add (world_y self) dy ;;
  blocked_y <- _check_collision self (world_x self) next_y ;;
  if negb blocked_y
  then (v <- Py.add (world_y self) dy ;; Ok (set_world_y self v))
  else Ok self.

(** Lines 240-244: the world clamp. *)
Definition clamp (self : t) : t :=
  let map_max_x := Map.width (current_map self) * TILE_SIZE - rect_width self in
  let map_max_y := Map.height (current_map self) * TILE_SIZE - rect_height self in
  let self :=
    set_world_x self
      (Py.max (Py.PInt 0) (Py.min (world_x self) (Py.PInt map_max_x))) in
  set_world_y self
    (Py.max (Py.PInt 0) (Py.min (world_y self) (Py.PInt map_max_y))).

Definition update (self : t) : result t :=
  ' (dx, dy, moving) <- displacement self ;;
  self <- (if moving then move self dx dy else Ok self) ;;
  Ok (clamp self).

End WithMapData.

End Player.

(** ** The camera of [main] *)

(** Lines 277-278: the offset that would put the player's [world]
    coordinates at the focus point. *)
Definition camera_target (player : Player.t) : result (Py.num * Py.num) :=
  camera_offset_x <- Py.sub (Py.PInt CAMERA_X) (Player.world_x player) ;;
  camera_offset_y <- Py.sub (Py.PInt CAMERA_Y) (Player.world_y player) ;;
  Ok (camera_offset_x, camera_offset_y).

(** Lines 281-284 and 287-290, the clamp of one axis: [screen] is the
    viewport size and [map_pixels] the size of the map in pixels. *)
Definition camera_clamp (screen map_pixels : Z) (camera_offset : Py.num) : Py.num :=
  if map_pixels <? screen
  then Py.PInt ((screen - map_pixels) / 2)
  else Py.min (Py.PInt 0) (Py.max camera_offset (Py.PInt (screen - map_pixels))).

Definition camera (player : Player.t) : result (Py.num * Py.num) :=
  let current_map := Player.current_map player in
  let map_width_pixels := Map.width current_map * TILE_SIZE in
  let map_height_pixels := Map.height current_map * TILE_SIZE in
  ' (camera_offset_x, camera_offset_y) <- camera_target player ;;
  Ok (camera_clamp SCREEN_WIDTH map_width_pixels camera_offset_x,
      camera_clamp SCREEN_HEIGHT map_height_pixels camera_offset_y).

(** One pass of the game loop body, lines 272-290. *)
Definition frame (md : map_data) (input_manager : InputManager.t)
           (player : Player.t)
  : result (Player.t * (Py.num * Py.num) * list string) :=
  let (player, out) := Player.handle_input player input_manager in
  player <- Player.update md player ;;
  offset <- camera player ;;
  Ok (player, offset, out).

(** ** Vocabulary of the statements *)

(** *** Intent *)

(** The directions whose action is active, in the order in which
    [handle_input] looks at them. *)
Definition held_directions (im : InputManager.t) : list Player.direction :=
  map snd
    (filter (fun a => InputManager.is_pressed im (fst a))
       [("left"%string, Player.left); ("right"%string, Player.right);
        ("up"%string, Player.up); ("down"%string, Player.down)]).

(** A player whose two speeds are the configured ones, as [__init__]
    sets them and as every later step leaves them. *)
Definition configured (self : Player.t) : Prop :=
  Player.walk_speed self = WALK_SPEED /\ Player.sprint_speed self = SPRINT_SPEED.

(** *** The world rectangle *)

Definition map_max_x (self : Player.t) : Z :=
  Map.width (Player.current_map self) * TILE_SIZE - Player.rect_width self.

Definition map_max_y (self : Player.t) : Z :=
  Map.height (Player.current_map self) * TILE_SIZE - Player.rect_height self.

(** [lo <= x <= hi] in Python's own comparison; it fails on a NaN. *)
Definition between (lo hi : Z) (x : Py.num) : Prop :=
  Py.le (Py.PInt lo) x = true /\ Py.le x (Py.PInt hi) = true.

(** The positions at which the player's box lies inside the map. *)
Definition in_world (self : Player.t) : Prop :=
  between 0 (map_max_x self) (Player.world_x self) /\
  between 0 (map_max_y self) (Player.world_y self).

(** The map is at least as large as the player's box, on both axes. *)
Definition fits (self : Player.t) : Prop :=
  Player.rect_width self <= Map.width (Player.current_map self) * TILE_SIZE /\
  Player.rect_height self <= Map.height (Player.current_map self) * TILE_SIZE.

(** The two halves of the world clamp. *)
Definition clamp_x (self : Player.t) (v : Py.num) : Py.num :=
  Py.max (Py.PInt 0) (Py.min v (Py.PInt (map_max_x self))).

Definition clamp_y (self : Player.t) (v : Py.num) : Py.num :=
  Py.max (Py.PInt 0) (Py.min v (Py.PInt (map_max_y self))).

(** A run of ticks, one input snapshot per tick: [handle_input] then
    [update], as in the game loop. *)
Fixpoint ticks (md : map_data) (inputs : list InputManager.t) (self : Player.t)
  : result Player.t :=
  match inputs with
  | [] => Ok self
  | input_manager :: inputs' =>
      self <- Player.update md (fst (Player.handle_input self input_manager)) ;;
      ticks md inputs' self
  end.

(** *** Grids and tiles *)

(** Every row of the grid has the same length. *)
Definition rectangular (grid : list (list Z)) : Prop :=
  forall row1 row2, In row1 grid -> In row2 grid ->
                    List.length row1 = List.length row2.

(** A map as the map format requires it: [height] rows, each of
    [width] cells. *)
Definition well_formed (m : Map.t) : Prop :=
  Map.height m = Z.of_nat (List.length (Map.map_array m)) /\
  Forall (fun row => Map.width m = Z.of_nat (List.length row)) (Map.map_array m).

(** The cell of the grid at row [r], column [c], when there is one. *)
Definition cell (m : Map.t) (r c : nat) : option Z :=
  match nth_error (Map.map_array m) r with
  | Some row => nth_error row c
  | None => None
  end.

(** The tile coordinate of a pixel coordinate, and the far edge
    [x + w - 1] of a box of size [w] that starts at [x]. *)
Definition tile_of (x : Py.num) : result Z := Py.int_floordiv x TILE_SIZE.

Definition far_edge (x : Py.num) (w : Z) : result Py.num :=
  s <- Py.add x (Py.PInt w) ;; Py.sub s (Py.PInt 1).

(** A coordinate with a value: an int, or a float that is neither an
    infinity nor a NaN. *)
Definition finite_num (x : Py.num) : Prop :=
  match x with
  | Py.PInt _ => True
  | Py.PFloat f => Py.is_finite f = true
  end.

(** The tile at column [tx], row [ty] lies inside the grid and is a wall. *)
Definition wall_at (md : map_data) (m : Map.t) (corner : Z * Z) : Prop :=
  let (tx, ty) := corner in
  0 <= ty < Map.height m /\ 0 <= tx < Map.width m /\
  Map.tile m ty tx = Ok (WALL md).

(** *** Speed *)

(** The Euclidean length of a displacement, computed as a Python test
    would: [math.sqrt(dx ** 2 + dy ** 2)]. *)
Definition magnitude (dx dy : Py.num) : result spec_float :=
  a <- Py.pow2 dx ;;
  b <- Py.pow2 dy ;;
  s <- Py.add a b ;;
  Py.sqrt s.

(** Floating-point tolerance: the machine epsilon [2 ^ -52] of binary64,
    used as a relative tolerance the way [math.isclose] uses [rel_tol]. *)
Definition EPSILON : spec_float := S754_finite false 4503599627370496 (-104).

Definition isclose (a b : spec_float) : bool :=
  let larger :=
    if SFltb (SFabs a) (SFabs b) then SFabs b else SFabs a in
  SFleb (SFabs (SFsub Py.prec Py.emax a b)) (SFmul Py.prec Py.emax EPSILON larger).

(** *** Camera *)

(** What the camera invariant asks of one axis: with the map at least
    as large as the viewport the offset lies in
    [[screen - map_pixels, 0]]; otherwise it is the integer that is
    exactly half of [screen - map_pixels]. *)
Definition camera_axis_ok (screen map_pixels : Z) (offset : Py.num) : Prop :=
  if screen <=? map_pixels
  then Py.ge (Py.PInt 0) offset = true /\
       Py.ge offset (Py.PInt (screen - map_pixels)) = true
  else exists c, offset = Py.PInt c /\ 2 * c = screen - map_pixels.

(** The focus point minus a coordinate, in Python arithmetic: exact on
    an int, the IEEE difference on a float. *)
Definition focus_minus (focus : Z) (world : Py.num) : Py.num :=
  match world with
  | Py.PInt z => Py.PInt (focus - z)
  | Py.PFloat f => Py.PFloat (SFsub Py.prec Py.emax (Py.lit focus) f)
  end.

(** The centre of the player's box: the world position plus half the
    bounding size. *)
Definition player_center (player : Player.t) : result (Py.num * Py.num) :=
  cx <- Py.add (Player.world_x player) (Py.PInt (Player.rect_width player / 2)) ;;
  cy <- Py.add (Player.world_y player) (Py.PInt (Player.rect_height player / 2)) ;;
  Ok (cx, cy).

(** The target offset in the words of the specification: the fixed focus
    point minus the player's centre. *)
Definition centered_target (player : Player.t) : result (Py.num * Py.num) :=
  ' (cx, cy) <- player_center player ;;
  ox <- Py.sub (Py.PInt CAMERA_X) cx ;;
  oy <- Py.sub (Py.PInt CAMERA_Y) cy ;;
  Ok (ox, oy).

(** *** Spawn tiles and the random source *)

Definition no_spawn (md : map_data) (m : Map.t) : Prop :=
  forall r c, cell m r c <> Some (SPAWN md).

Definition only_spawn_at (md : map_data) (m : Map.t) (col row : nat) : Prop :=
  forall r c, cell m r c = Some (SPAWN md) <-> r = row /\ c = col.

(** A random source always answers below its bound. *)
Definition in_range {rng : Type} (randbelow : rng -> nat -> nat * rng) : Prop :=
  forall s n, (0 < n)%nat -> (fst (randbelow s n) < n)%nat.

(** ** Sample data *)

(** Input snapshots: the given actions are active, all others are not. *)
Definition holding (actions : list string) : InputManager.t :=
  {| InputManager.action_state := map (fun a => (a, true)) actions |}.

(** A [map_data] with one map: a 5 x 5 room with a wall border and a
    spawn tile at column 1, row 1. *)
Definition sample_data : map_data :=
  {| GRASS := 0; WALL := 1; STAIRS := 2; DOOR := 3; SPAWN := 4;
     MAP_COLLECTION :=
       [("map1"%string,
         [[1; 1; 1; 1; 1];
          [1; 4; 0; 0; 1];
          [1; 0; 0; 0; 1];
          [1; 0; 0; 0; 1];
          [1; 1; 1; 1; 1]])] |}.

Definition sample_map : Map.t :=
  {| Map.map_array :=
       [[1; 1; 1; 1; 1];
        [1; 4; 0; 0; 1];
        [1; 0; 0; 0; 1];
        [1; 0; 0; 0; 1];
        [1; 1; 1; 1; 1]];
     Map.height := 5;
     Map.width := 5 |}.

(** The player on the spawn tile of the room. *)
Definition sample_player : Player.t :=
  Player.__init__ (Py.PInt 32) (Py.PInt 32) sample_map.

(** The same player pushing left and down, against the wall on its left. *)
Definition sliding_player : Player.t :=
  fst (Player.handle_input sample_player (holding ["left"; "down"]%string)).

(** A 3 x 3 map of floor tiles only, and a player in its top-left corner. *)
Definition open_map : Map.t :=
  {| Map.map_array := [[0; 0; 0]; [0; 0; 0]; [0; 0; 0]];
     Map.height := 3;
     Map.width := 3 |}.

Definition corner_player : Player.t :=
  Player.__init__ (Py.PInt 0) (Py.PInt 0) open_map.

(** That player pushing up and left, out of the map, and where the tick
    leaves it: back on the corner. *)
Definition pushing_out : Player.t :=
  fst (Player.handle_input corner_player (holding ["left"; "up"]%string)).

Definition pushed_back : Player.t :=
  Player.set_world_y (Player.set_world_x pushing_out (Py.PInt 0)) (Py.PInt 0).

(** A 4 x 3 grid whose only spawn tile is at column 2, row 3, and a grid
    with three spawn tiles. *)
Definition spawn_map : Map.t :=
  {| Map.map_array := [[1; 1; 1]; [1; 0; 1]; [1; 0; 1]; [1; 0; 4]];
     Map.height := 4;
     Map.width := 3 |}.

Definition three_spawn_map : Map.t :=
  {| Map.map_array := [[4; 0; 4]; [0; 4; 0]];
     Map.height := 2;
     Map.width := 3 |}.

(** A map table whose only grid has rows of different lengths. *)
Definition ragged_data : map_data :=
  {| GRASS := 0; WALL := 1; STAIRS := 2; DOOR := 3; SPAWN := 4;
     MAP_COLLECTION := [("map1"%string, [[1; 1; 1]; [1; 0]; [1]])] |}.

(** [load_sprite] returns on a file: the image loads, or [pygame.error]
    is caught and the red square is built. *)
Definition sprite_returns (pf : platform) (filename : string) : Prop :=
  match image_load pf (os_path_join pf ASSET_FOLDER filename) with
  | Image => True
  | PygameError _ => missing_sprite pf = None
  | Escapes _ => False
  end.

(** [load_sprite] returns on every file of [TILE_ASSETS]. *)
Definition tiles_load (pf : platform) (md : map_data) : Prop :=
  Forall (fun entry => sprite_returns pf (snd entry)) (Map.TILE_ASSETS md).

Definition posix_join (folder filename : string) : string :=
  (folder ++ "/" ++ filename)%string.

(** Three platforms: every image file is there; no display has been
    opened, so that pygame refuses every image; the asset folder does
    not exist. *)
Definition all_images : platform :=
  {| os_path_join := posix_join;
     image_load := fun _ => Image;
     missing_sprite := None |}.

Definition no_display : platform :=
  {| os_path_join := posix_join;
     image_load := fun _ => PygameError "No video mode has been set";
     missing_sprite := None |}.

Definition no_folder : platform :=
  {| os_path_join := posix_join;
     image_load := fun _ => Escapes (OtherException "FileNotFoundError");
     missing_sprite := None |}.

(** A seeded random source: the state is a counter. *)
Definition counter_randbelow (s : nat) (n : nat) : nat * nat :=
  (Nat.modulo s n, S s).

(** *** Further vocabulary *)

(** Two players that differ at most in their world position. *)
Definition same_but_position (p q : Player.t) : Prop :=
  Player.current_map p = Player.current_map q /\
  Player.walk_speed p = Player.walk_speed q /\
  Player.sprint_speed p = Player.sprint_speed q /\
  Player.current_speed p = Player.current_speed q /\
  Player.current_direction p = Player.current_direction q /\
  Player.rect_width p = Player.rect_width q /\
  Player.rect_height p = Player.rect_height q /\
  Player.change_x p = Player.change_x q /\
  Player.change_y p = Player.change_y q.

(** The lines [handle_input] prints for a snapshot. *)
Definition button_lines (im : InputManager.t) : list string :=
  (if InputManager.is_pressed im "action_a"
   then ["Action Button (A) Pressed!"%string] else [])
  ++ (if InputManager.is_pressed im "action_y"
      then ["Use Button (Y) Pressed!"%string] else []).

(** The tile coordinate [corner] lies inside the grid of [m]. *)
Definition in_grid (m : Map.t) (corner : Z * Z) : Prop :=
  let (tx, ty) := corner in
  0 <= ty < Map.height m /\ 0 <= tx < Map.width m.

(** How the camera offset of an axis follows its target when the map is
    at least as large as the viewport: the target itself while it lies
    in [[screen - map_pixels, 0)], 0 when it is not below 0 (or is
    unordered), the lower bound when it is below it. *)
Definition camera_follows (screen map_pixels : Z) (target offset : Py.num) : Prop :=
  (Py.le (Py.PInt (screen - map_pixels)) target = true ->
   Py.lt target (Py.PInt 0) = true -> offset = target) /\
  (Py.lt target (Py.PInt 0) = false ->
   Py.lt target (Py.PInt (screen - map_pixels)) = false -> offset = Py.PInt 0) /\
  (Py.lt target (Py.PInt (screen - map_pixels)) = true ->
   offset = Py.PInt (screen - map_pixels)).

(** A 30 x 20 map of floor tiles, larger than the viewport, and a player
    in the middle of it at a float position. *)
Definition large_map : Map.t :=
  {| Map.map_array := repeat (repeat 0 30%nat) 20%nat;
     Map.height := 20;
     Map.width := 30 |}.

Definition roaming_player : Player.t :=
  Player.__init__ (Py.PFloat (Py.lit 400)) (Py.PFloat (Py.lit 300)) large_map.

(** What a blit of [Map.draw] shows: the sprite of the tile at row [r],
    column [c] of the grid, placed at the pixel origin of that cell
    shifted by the camera offset. *)
Definition blit_of_cell (md : map_data) (m : Map.t) (offset_x offset_y : Py.num)
           (r c : Z) (b : Map.blit) : Prop :=
  exists tile_code tile_image x y,
    Map.tile m r c = Ok tile_code /\
    Map.assets_get (Map.load_map_tiles md) tile_code = Some tile_image /\
    Py.add (Py.PInt (c * TILE_SIZE)) offset_x = Ok x /\
    Py.add (Py.PInt (r * TILE_SIZE)) offset_y = Ok y /\
    b = (tile_image, x, y).

(** * Properties *)

(** ** The number model on a few values *)

(** 33.41... lies in tile 1, -1.41... in tile -1 (floor, not truncation),
    and a NaN has no tile. *)
Example tile_of_positive :
  tile_of (Py.PFloat (S754_finite false 4702632492136926 (-47))) = Ok 1.
Proof. reflexivity. Qed.

Example tile_of_negative :
  tile_of (Py.PFloat (S754_finite true 6369051672525772 (-52))) = Ok (-1).
Proof. reflexivity. Qed.

Example tile_of_nan : tile_of (Py.PFloat S754_nan) = Raise ValueError.
Proof. reflexivity. Qed.

(** An int and a float are compared on their exact values: [2^53 + 1]
    is above the float [2^53], although it rounds to it. *)
Example compare_exact :
  Py.gt (Py.PInt (2 ^ 53 + 1)) (Py.PFloat (Py.lit (2 ^ 53))) = true /\
  Py.float_of_int (2 ^ 53 + 1) = Ok (Py.lit (2 ^ 53)).
Proof. split; vm_compute; reflexivity. Qed.

(** [min] and [max] keep their first argument against a NaN. *)
Example min_max_nan :
  Py.min (Py.PFloat S754_nan) (Py.PInt 128) = Py.PFloat S754_nan /\
  Py.max (Py.PInt 0) (Py.PFloat S754_nan) = Py.PInt 0.
Proof. split; reflexivity. Qed.

(** ** Intent resolution *)

(** Case analysis on the five actions [handle_input] reads. *)
Ltac input_cases im :=
  destruct (InputManager.is_pressed im "sprint");
  destruct (InputManager.is_pressed im "left");
  destruct (InputManager.is_pressed im "right");
  destruct (InputManager.is_pressed im "up");
  destruct (InputManager.is_pressed im "down").

Section Intent.

Variable self : Player.t.
Variable im : InputManager.t.

Lemma handle_input_speed :
  Player.current_speed (fst (Player.handle_input self im)) =
  if InputManager.is_pressed im "sprint"
  then Player.sprint_speed self
  else Player.walk_speed self.
Proof. unfold Player.handle_input. input_cases im; reflexivity. Qed.

Lemma handle_input_change_x :
  Player.change_x (fst (Player.handle_input self im)) =
  if InputManager.is_pressed im "right"
  then Py.PFloat (Player.current_speed (fst (Player.handle_input self im)))
  else if InputManager.is_pressed im "left"
       then Py.PFloat (SFopp (Player.current_speed (fst (Player.handle_input self im))))
       else Py.PInt 0.
Proof. unfold Player.handle_input. input_cases im; reflexivity. Qed.

Lemma handle_input_change_y :
  Player.change_y (fst (Player.handle_input self im)) =
  if InputManager.is_pressed im "down"
  then Py.PFloat (Player.current_speed (fst (Player.handle_input self im)))
  else if InputManager.is_pressed im "up"
       then Py.PFloat (SFopp (Player.current_speed (fst (Player.handle_input self im))))
       else Py.PInt 0.
Proof. unfold Player.handle_input. input_cases im; reflexivity. Qed.

Lemma handle_input_direction :
  Player.current_direction (fst (Player.handle_input self im)) =
  last (held_directions im) (Player.current_direction self).
Proof.
  unfold held_directions, Player.handle_input. simpl.
  input_cases im; reflexivity.
Qed.

(** What [handle_input] leaves untouched. *)
Lemma handle_input_frame :
  Player.world_x (fst (Player.handle_input self im)) = Player.world_x self /\
  Player.world_y (fst (Player.handle_input self im)) = Player.world_y self /\
  Player.current_map (fst (Player.handle_input self im)) = Player.current_map self /\
  Player.walk_speed (fst (Player.handle_input self im)) = Player.walk_speed self /\
  Player.sprint_speed (fst (Player.handle_input self im)) = Player.sprint_speed self /\
  Player.rect_width (fst (Player.handle_input self im)) = Player.rect_width self /\
  Player.rect_height (fst (Player.handle_input self im)) = Player.rect_height self.
Proof.
  unfold Player.handle_input. input_cases im; repeat split; reflexivity.
Qed.

End Intent.

Lemma configured_init (x y : Py.num) (m : Map.t) :
  configured (Player.__init__ x y m).
Proof. split; reflexivity. Qed.

Lemma configured_handle_input (self : Player.t) (im : InputManager.t) :
  configured self -> configured (fst (Player.handle_input self im)).
Proof.
  intros [Hw Hs].
  destruct (handle_input_frame self im) as (_ & _ & _ & Hw' & Hs' & _).
  split; congruence.
Qed.

Lemma configured_speed (self : Player.t) (im : InputManager.t) :
  configured self ->
  Player.current_speed (fst (Player.handle_input self im)) =
  if InputManager.is_pressed im "sprint" then SPRINT_SPEED else WALK_SPEED.
Proof.
  intros [Hw Hs]. rewrite handle_input_speed, Hw, Hs. reflexivity.
Qed.

(** C7. When left and right are both held the horizontal intent is the
    positive (rightward) speed; when up and down are both held the
    vertical intent is the positive (downward) speed; and the facing is
    the last held direction in the order left, right, up, down (the
    previous facing when none is held). *)
Theorem handle_input_tie_break (self : Player.t) (im : InputManager.t) :
  configured self ->
  let self' := fst (Player.handle_input self im) in
  (InputManager.is_pressed im "left" = true ->
   InputManager.is_pressed im "right" = true ->
   Player.change_x self' = Py.PFloat (Player.current_speed self') /\
   Py.gt (Player.change_x self') (Py.PInt 0) = true) /\
  (InputManager.is_pressed im "up" = true ->
   InputManager.is_pressed im "down" = true ->
   Player.change_y self' = Py.PFloat (Player.current_speed self') /\
   Py.gt (Player.change_y self') (Py.PInt 0) = true) /\
  Player.current_direction self' =
  last (held_directions im) (Player.current_direction self).
Proof.
  intros Hc self'. subst self'.
  pose proof (configured_speed self im Hc) as Hs.
  split; [| split].
  - intros _ Hr. rewrite handle_input_change_x, Hr, Hs.
    split; [reflexivity |].
    destruct (InputManager.is_pressed im "sprint"); reflexivity.
  - intros _ Hd. rewrite handle_input_change_y, Hd, Hs.
    split; [reflexivity |].
    destruct (InputManager.is_pressed im "sprint"); reflexivity.
  - apply handle_input_direction.
Qed.

Lemma handle_input_tie_break_witness :
  let self' := fst (Player.handle_input sample_player
                      (holding ["left"; "right"; "up"; "down"]%string)) in
  Player.change_x self' = Py.PFloat WALK_SPEED /\
  Player.change_y self' = Py.PFloat WALK_SPEED /\
  Player.current_direction self' = Player.down.
Proof.
  destruct (handle_input_tie_break sample_player
              (holding ["left"; "right"; "up"; "down"]%string)
              (configured_init _ _ _)) as (Hx & Hy & Hd).
  destruct (Hx eq_refl eq_refl) as [Hx' _].
  destruct (Hy eq_refl eq_refl) as [Hy' _].
  split; [exact Hx' | split; [exact Hy' | exact Hd]].
Defined.

(** C10. With none of left, right, up, down active, [handle_input] keeps
    the facing of the previous tick while the intent is reset to zero on
    both axes; a new player faces down. *)
Theorem handle_input_idle_keeps_facing (self : Player.t) (im : InputManager.t)
        (x y : Py.num) (m : Map.t) :
  Player.current_direction (Player.__init__ x y m) = Player.down /\
  (InputManager.is_pressed im "left" = false ->
   InputManager.is_pressed im "right" = false ->
   InputManager.is_pressed im "up" = false ->
   InputManager.is_pressed im "down" = false ->
   let self' := fst (Player.handle_input self im) in
   Player.current_direction self' = Player.current_direction self /\
   Player.change_x self' = Py.PInt 0 /\
   Player.change_y self' = Py.PInt 0).
Proof.
  split; [reflexivity |].
  intros Hl Hr Hu Hd self'. subst self'.
  rewrite handle_input_direction, handle_input_change_x, handle_input_change_y.
  unfold held_directions. simpl. rewrite Hl, Hr, Hu, Hd. simpl.
  repeat split; reflexivity.
Qed.

Lemma handle_input_idle_keeps_facing_witness :
  let self := Player.set_current_direction sample_player Player.left in
  let self' := fst (Player.handle_input self (holding ["sprint"]%string)) in
  Player.current_direction self' = Player.left /\
  Player.change_x self' = Py.PInt 0 /\
  Player.change_y self' = Py.PInt 0.
Proof.
  exact (proj2 (handle_input_idle_keeps_facing
                  (Player.set_current_direction sample_player Player.left)
                  (holding ["sprint"]%string) (Py.PInt 0) (Py.PInt 0) sample_map)
               eq_refl eq_refl eq_refl eq_refl).
Defined.

(** ** Facts about Python's comparison *)

Lemma bind_ok {A B : Type} (c : result A) (k : A -> result B) (b : B) :
  bind c k = Ok b -> exists a, c = Ok a /\ k a = Ok b.
Proof.
  destruct c as [a | e]; simpl; intros H; [eauto | discriminate].
Qed.

Ltac bind_inv H :=
  let a := fresh "a" in
  let Ha := fresh "Ha" in
  apply bind_ok in H; destruct H as (a & Ha & H).

Lemma compare_int_swap (z : Z) (x : Py.num) :
  Py.compare x (Py.PInt z) = option_map CompOpp (Py.compare (Py.PInt z) x).
Proof.
  destruct x as [y | f]; simpl.
  - now rewrite (Z.compare_antisym z y).
  - reflexivity.
Qed.

Lemma compare_int_float_defined (z z' : Z) (f : spec_float) (c : comparison) :
  Py.compare_int_float z f = Some c ->
  exists c', Py.compare_int_float z' f = Some c'.
Proof.
  destruct f; simpl; intros H; try discriminate; eauto.
Qed.

Lemma compare_int_defined (z z' : Z) (x : Py.num) (c : comparison) :
  Py.compare (Py.PInt z) x = Some c ->
  exists c', Py.compare (Py.PInt z') x = Some c'.
Proof.
  destruct x as [y | f]; simpl; [eauto | apply compare_int_float_defined].
Qed.

Lemma le_int_int (a b : Z) : Py.le (Py.PInt a) (Py.PInt b) = true <-> a <= b.
Proof.
  unfold Py.le; simpl.
  destruct (Z.compare_spec a b); split; intros; try lia; auto; discriminate.
Qed.

Lemma between_int (lo hi z : Z) :
  lo <= z <= hi -> between lo hi (Py.PInt z).
Proof. intros Hz. unfold between. rewrite !le_int_int. lia. Qed.

(** [max(lo, min(x, hi))] always lands in [[lo, hi]], whatever [x] is,
    a NaN included. *)
Lemma max_min_between (lo hi : Z) (x : Py.num) :
  lo <= hi ->
  between lo hi (Py.max (Py.PInt lo) (Py.min x (Py.PInt hi))).
Proof.
  intros Hlh.
  assert (Hkeep : Py.compare (Py.PInt hi) x <> Some Lt ->
                  between lo hi (Py.max (Py.PInt lo) x)).
  { intros Hhi. unfold Py.max, Py.gt. rewrite compare_int_swap.
    destruct (Py.compare (Py.PInt lo) x) as [[| |] |] eqn:Hlo; simpl;
      try (apply between_int; lia).
    unfold between, Py.le. rewrite Hlo, (compare_int_swap hi x).
    destruct (compare_int_defined lo hi x _ Hlo) as [c Hc]. rewrite Hc in *.
    destruct c; simpl; auto. }
  unfold Py.min, Py.lt.
  destruct (Py.compare (Py.PInt hi) x) as [[| |] |] eqn:Hhi;
    try (apply Hkeep; discriminate).
  unfold Py.max, Py.gt. simpl.
  destruct (hi ?= lo); apply between_int; lia.
Qed.

(** [min(hi, max(x, lo))], the camera's form of the clamp. *)
Lemma min_max_between (lo hi : Z) (x : Py.num) :
  lo <= hi ->
  between lo hi (Py.min (Py.PInt hi) (Py.max x (Py.PInt lo))).
Proof.
  intros Hlh.
  assert (Hkeep : Py.compare (Py.PInt lo) x <> Some Gt ->
                  between lo hi (Py.min (Py.PInt hi) x)).
  { intros Hlo. unfold Py.min, Py.lt. rewrite compare_int_swap.
    destruct (Py.compare (Py.PInt hi) x) as [[| |] |] eqn:Hhi; simpl;
      try (apply between_int; lia).
    unfold between, Py.le. rewrite (compare_int_swap hi x), Hhi.
    destruct (compare_int_defined hi lo x _ Hhi) as [c Hc]. rewrite Hc in *.
    destruct c; simpl; auto. }
  unfold Py.max, Py.gt.
  destruct (Py.compare (Py.PInt lo) x) as [[| |] |] eqn:Hlo;
    try (apply Hkeep; discriminate).
  unfold Py.min, Py.lt. simpl.
  destruct (lo ?= hi); apply between_int; lia.
Qed.

(** ** The world clamp *)

Section Update.

Variable md : map_data.

Lemma move_frame (self self' : Player.t) (dx dy : Py.num) :
  Player.move md self dx dy = Ok self' ->
  Player.current_map self' = Player.current_map self /\
  Player.rect_width self' = Player.rect_width self /\
  Player.rect_height self' = Player.rect_height self.
Proof.
  unfold Player.move. intros H.
  bind_inv H. rename a into next_x.
  bind_inv H. rename a into blocked_x.
  bind_inv H. rename a into mid, Ha1 into Hmid.
  assert (Hsame : Player.current_map mid = Player.current_map self /\
                  Player.rect_width mid = Player.rect_width self /\
                  Player.rect_height mid = Player.rect_height self).
  { destruct (negb blocked_x).
    - bind_inv Hmid. inversion Hmid. repeat split; reflexivity.
    - inversion Hmid. repeat split; reflexivity. }
  bind_inv H. rename a into next_y.
  bind_inv H. rename a into blocked_y.
  destruct (negb blocked_y).
  - bind_inv H. inversion H. simpl. exact Hsame.
  - inversion H. subst. exact Hsame.
Qed.

Lemma clamp_in_world (self : Player.t) :
  fits self -> in_world (Player.clamp self).
Proof.
  intros [Hw Hh]. unfold in_world, map_max_x, map_max_y, Player.clamp. simpl.
  split; apply max_min_between; lia.
Qed.

Lemma update_frame (self self' : Player.t) :
  Player.update md self = Ok self' ->
  Player.current_map self' = Player.current_map self /\
  Player.rect_width self' = Player.rect_width self /\
  Player.rect_height self' = Player.rect_height self /\
  exists moved, self' = Player.clamp moved /\
    Player.current_map moved = Player.current_map self /\
    Player.rect_width moved = Player.rect_width self /\
    Player.rect_height moved = Player.rect_height self.
Proof.
  unfold Player.update. intros H.
  bind_inv H. destruct a as [[dx dy] moving]. bind_inv H.
  inversion H; subst self'; clear H.
  assert (Hm : Player.current_map a = Player.current_map self /\
               Player.rect_width a = Player.rect_width self /\
               Player.rect_height a = Player.rect_height self).
  { destruct moving.
    - eapply move_frame; eassumption.
    - inversion Ha0. repeat split; reflexivity. }
  destruct Hm as (Hm1 & Hm2 & Hm3). simpl.
  repeat split; try assumption.
  exists a. repeat split; assumption.
Qed.

(** C1. Whenever [update] completes, the player's position lies in
    [[0, map_pixel_width - w]] on x and [[0, map_pixel_height - h]] on y,
    for every stored intent and every starting position (a NaN or an
    infinity included), provided the map is at least as large as the
    player's box. *)
Theorem update_in_world (self self' : Player.t) :
  fits self ->
  Player.update md self = Ok self' ->
  in_world self' /\
  map_max_x self' = map_max_x self /\
  map_max_y self' = map_max_y self.
Proof.
  intros Hfit H.
  destruct (update_frame self self' H)
    as (Hm & Hw & Hh & moved & -> & Hm' & Hw' & Hh').
  split.
  - apply clamp_in_world. unfold fits in *. rewrite Hm', Hw', Hh'. exact Hfit.
  - unfold map_max_x, map_max_y. rewrite Hm, Hw, Hh. split; reflexivity.
Qed.

Lemma update_fits (self self' : Player.t) :
  fits self -> Player.update md self = Ok self' -> fits self'.
Proof.
  intros Hfit H. destruct (update_frame self self' H) as (Hm & Hw & Hh & _).
  unfold fits in *. rewrite Hm, Hw, Hh. exact Hfit.
Qed.

Lemma handle_input_fits (self : Player.t) (im : InputManager.t) :
  fits self -> fits (fst (Player.handle_input self im)).
Proof.
  destruct (handle_input_frame self im) as (_ & _ & Hm & _ & _ & Hw & Hh).
  unfold fits. rewrite Hm, Hw, Hh. auto.
Qed.

(** The invariant along any run: after one or more ticks, whatever the
    inputs, the player is inside the world. *)
Lemma ticks_in_world (inputs : list InputManager.t) (self self' : Player.t) :
  inputs <> [] ->
  fits self ->
  ticks md inputs self = Ok self' ->
  in_world self' /\ fits self'.
Proof.
  revert self. induction inputs as [| im inputs IH]; intros self Hne Hfit H.
  - contradiction.
  - simpl in H. bind_inv H.
    pose proof (handle_input_fits self im Hfit) as Hfit1.
    pose proof (update_fits _ _ Hfit1 Ha) as Hfit2.
    destruct inputs as [| im' inputs'].
    + simpl in H. inversion H; subst self'.
      split; [| exact Hfit2].
      destruct (update_frame _ _ Ha) as (_ & _ & _ & moved & -> & Hm & Hw & Hh).
      apply clamp_in_world. unfold fits in *. rewrite Hm, Hw, Hh. exact Hfit1.
    + apply (IH a); [discriminate | exact Hfit2 | exact H].
Qed.

End Update.

Lemma update_in_world_witness :
  Player.update sample_data pushing_out = Ok pushed_back /\
  in_world pushed_back.
Proof.
  assert (Hrun : Player.update sample_data pushing_out = Ok pushed_back)
    by (vm_compute; reflexivity).
  split; [exact Hrun |].
  refine (proj1 (update_in_world sample_data pushing_out pushed_back _ Hrun)).
  split; vm_compute; discriminate.
Defined.

(** ** The camera *)

Lemma ge_le_int_l (z : Z) (x : Py.num) : Py.ge (Py.PInt z) x = Py.le x (Py.PInt z).
Proof.
  unfold Py.ge, Py.le. rewrite compare_int_swap.
  destruct (Py.compare (Py.PInt z) x) as [[| |] |]; reflexivity.
Qed.

Lemma ge_le_int_r (z : Z) (x : Py.num) : Py.ge x (Py.PInt z) = Py.le (Py.PInt z) x.
Proof.
  unfold Py.ge, Py.le. rewrite compare_int_swap.
  destruct (Py.compare (Py.PInt z) x) as [[| |] |]; reflexivity.
Qed.

Lemma camera_clamp_ok (screen map_pixels : Z) (camera_offset : Py.num) :
  Z.even (screen - map_pixels) = true ->
  camera_axis_ok screen map_pixels (camera_clamp screen map_pixels camera_offset).
Proof.
  intros Heven. unfold camera_axis_ok, camera_clamp.
  destruct (Z.leb_spec screen map_pixels) as [Hle | Hlt].
  - destruct (Z.ltb_spec map_pixels screen) as [Hlt | _]; [lia |].
    rewrite ge_le_int_l, ge_le_int_r.
    destruct (min_max_between (screen - map_pixels) 0 camera_offset) as [H1 H2];
      [lia | auto].
  - destruct (Z.ltb_spec map_pixels screen) as [_ | Hge]; [| lia].
    exists ((screen - map_pixels) / 2). split; [reflexivity |].
    apply Z.even_spec in Heven. destruct Heven as [k Hk].
    rewrite Hk. rewrite (Z.mul_comm 2 k), Z.div_mul by lia. lia.
Qed.

Lemma sub_focus (focus : Z) (world : Py.num) :
  Py.float_of_int focus = Ok (Py.lit focus) ->
  Py.sub (Py.PInt focus) world = Ok (focus_minus focus world).
Proof.
  intros Hf. destruct world as [z | f]; simpl; [reflexivity |].
  rewrite Hf. reflexivity.
Qed.

Lemma camera_target_total (player : Player.t) :
  camera_target player =
  Ok (focus_minus CAMERA_X (Player.world_x player),
      focus_minus CAMERA_Y (Player.world_y player)).
Proof.
  unfold camera_target.
  rewrite (sub_focus CAMERA_X), (sub_focus CAMERA_Y) by reflexivity.
  reflexivity.
Qed.

(** C4. The camera always produces an offset, and on each axis: when
    the map is at least as wide (high) as the viewport the offset lies
    between [viewport - map_pixels] and [0], for every player position;
    otherwise it is exactly half of [viewport - map_pixels], whatever
    the player position. *)
Theorem camera_offset_clamped (player : Player.t) :
  exists ox oy,
    camera player = Ok (ox, oy) /\
    camera_axis_ok SCREEN_WIDTH
      (Map.width (Player.current_map player) * TILE_SIZE) ox /\
    camera_axis_ok SCREEN_HEIGHT
      (Map.height (Player.current_map player) * TILE_SIZE) oy.
Proof.
  unfold camera. rewrite camera_target_total. simpl.
  eexists. eexists. split; [reflexivity |].
  split; apply camera_clamp_ok.
  - unfold SCREEN_WIDTH, TILE_SIZE.
    replace (640 - Map.width (Player.current_map player) * 32)
      with (2 * (320 - Map.width (Player.current_map player) * 16)) by lia.
    rewrite Z.even_mul. reflexivity.
  - unfold SCREEN_HEIGHT, TILE_SIZE.
    replace (480 - Map.height (Player.current_map player) * 32)
      with (2 * (240 - Map.height (Player.current_map player) * 16)) by lia.
    rewrite Z.even_mul. reflexivity.
Qed.

(** C5, as stated, fails: for the sample player at (32, 32) with its
    32 x 32 box the program's target is (288, 208), the focus point
    minus the top-left corner, and not (272, 192), the focus point minus
    the centre. *)
Lemma camera_target_not_centered :
  camera_target sample_player = Ok (Py.PInt 288, Py.PInt 208) /\
  centered_target sample_player = Ok (Py.PInt 272, Py.PInt 192) /\
  camera_target sample_player <> centered_target sample_player.
Proof.
  split; [reflexivity |]. split; [reflexivity |].
  vm_compute. discriminate.
Qed.

(** C5, amended. The pre-clamp target is the fixed focus point minus the
    player's world position (the top-left corner of its box) on each
    axis; it is always defined and depends on nothing but that position
    and the focus point. *)
Theorem camera_target_top_left (player : Player.t) :
  camera_target player =
  Ok (focus_minus CAMERA_X (Player.world_x player),
      focus_minus CAMERA_Y (Player.world_y player)) /\
  CAMERA_X = SCREEN_WIDTH / 2 /\ CAMERA_Y = SCREEN_HEIGHT / 2 /\
  forall other : Player.t,
    Player.world_x other = Player.world_x player ->
    Player.world_y other = Player.world_y player ->
    camera_target other = camera_target player.
Proof.
  split; [apply camera_target_total |].
  split; [reflexivity |]. split; [reflexivity |].
  intros other Hx Hy. rewrite !camera_target_total, Hx, Hy. reflexivity.
Qed.

Lemma camera_target_top_left_witness :
  camera_target (Player.set_world_x sample_player (Py.PInt 40))
  = camera_target (Player.__init__ (Py.PInt 40) (Py.PInt 32) open_map).
Proof.
  exact (proj2 (proj2 (proj2
           (camera_target_top_left
              (Player.__init__ (Py.PInt 40) (Py.PInt 32) open_map))))
           (Player.set_world_x sample_player (Py.PInt 40)) eq_refl eq_refl).
Defined.

(** ** The four-corner collision test *)

Section Collision.

Variable md : map_data.

Lemma tile_defined (m : Map.t) (tx ty : Z) :
  well_formed m ->
  0 <= ty < Map.height m -> 0 <= tx < Map.width m ->
  exists tile_code, Map.tile m ty tx = Ok tile_code.
Proof.
  intros [Hh Hrows] Hty Htx. unfold Map.tile.
  destruct (nth_error (Map.map_array m) (Z.to_nat ty)) as [row |] eqn:Hrow.
  - assert (Hlen : Map.width m = Z.of_nat (List.length row)).
    { rewrite Forall_forall in Hrows. apply Hrows.
      eapply nth_error_In; eassumption. }
    destruct (nth_error row (Z.to_nat tx)) as [tile_code |] eqn:Hcell; [eauto |].
    apply nth_error_None in Hcell. lia.
  - apply nth_error_None in Hrow. lia.
Qed.

Lemma scan_corners_spec (m : Map.t) (corners : list (Z * Z)) :
  well_formed m ->
  exists b, Player.scan_corners md m corners = Ok b /\
            (b = true <-> Exists (wall_at md m) corners).
Proof.
  intros Hwf. induction corners as [| [tx ty] rest IH].
  - exists false. split; [reflexivity |].
    split; [discriminate | intros H; inversion H].
  - destruct IH as (b & Hb & Hiff). simpl.
    destruct ((0 <=? ty) && (ty <? Map.height m) && (0 <=? tx)
              && (tx <? Map.width m)) eqn:Hin.
    + apply andb_prop in Hin; destruct Hin as [Hin Hin4].
      apply andb_prop in Hin; destruct Hin as [Hin Hin3].
      apply andb_prop in Hin; destruct Hin as [Hin1 Hin2].
      apply Z.leb_le in Hin1, Hin3. apply Z.ltb_lt in Hin2, Hin4.
      destruct (tile_defined m tx ty Hwf) as [tile_code Htile]; [lia | lia |].
      rewrite Htile. simpl.
      destruct (Z.eqb_spec tile_code (WALL md)) as [-> | Hne].
      * exists true. split; [reflexivity |].
        split; [| reflexivity]. intros _. apply Exists_cons_hd.
        simpl. repeat split; try lia. exact Htile.
      * exists b. split; [exact Hb |]. rewrite Hiff.
        split; [apply Exists_cons_tl |].
        intros H; inversion H as [? ? Hhd | ? ? Htl]; subst; [| exact Htl].
        simpl in Hhd. destruct Hhd as (_ & _ & Hhd).
        rewrite Htile in Hhd. inversion Hhd. contradiction.
    + exists b. split; [exact Hb |]. rewrite Hiff.
      split; [apply Exists_cons_tl |].
      intros H; inversion H as [? ? Hhd | ? ? Htl]; subst; [| exact Htl].
      simpl in Hhd. destruct Hhd as (Hy & Hx & _).
      assert (Hall : (0 <=? ty) && (ty <? Map.height m) && (0 <=? tx)
                     && (tx <? Map.width m) = true).
      { rewrite !andb_true_iff, !Z.leb_le, !Z.ltb_lt. lia. }
      congruence.
Qed.

(** Every finite coordinate has a tile. *)
Lemma tile_of_defined (x : Py.num) :
  finite_num x -> exists tile, tile_of x = Ok tile.
Proof.
  destruct x as [z | [s | s | | s m e]]; simpl; intros Hfin;
    try discriminate Hfin; unfold tile_of; simpl; eauto.
Qed.

(** The collision test returns as soon as the box has finite corners
    and the grid is well formed. *)
Lemma check_collision_completes (self : Player.t) (next_x next_y x_far y_far : Py.num) :
  well_formed (Player.current_map self) ->
  far_edge next_x (Player.rect_width self) = Ok x_far ->
  far_edge next_y (Player.rect_height self) = Ok y_far ->
  finite_num next_x -> finite_num next_y ->
  finite_num x_far -> finite_num y_far ->
  exists blocked, Player._check_collision md self next_x next_y = Ok blocked.
Proof.
  intros Hwf Hxf Hyf Hx Hy Hx' Hy'.
  destruct (tile_of_defined next_x Hx) as [tile_x1 Hx1].
  destruct (tile_of_defined next_y Hy) as [tile_y1 Hy1].
  destruct (tile_of_defined x_far Hx') as [tile_x2 Hx2].
  destruct (tile_of_defined y_far Hy') as [tile_y2 Hy2].
  unfold Player._check_collision. unfold tile_of, far_edge in *.
  rewrite Hx1, Hy1. cbn [bind]. rewrite Hxf. cbn [bind]. rewrite Hx2. cbn [bind].
  rewrite Hyf. cbn [bind]. rewrite Hy2. cbn [bind].
  destruct (scan_corners_spec (Player.current_map self)
              [(tile_x1, tile_y1); (tile_x1, tile_y2);
               (tile_x2, tile_y1); (tile_x2, tile_y2)] Hwf) as (b & Hb & _).
  exists b. exact Hb.
Qed.

(** C6. On a well-formed grid, with the four corner coordinates
    [x], [x + w - 1], [y], [y + h - 1] turned into tile coordinates by
    floor division by the tile size, [_check_collision] returns, and it
    returns [True] exactly when one of the four sampled tiles is inside
    the grid and holds a wall; a corner outside the grid never blocks. *)
Theorem check_collision_four_corners
        (self : Player.t) (next_x next_y x_far y_far : Py.num)
        (tile_x1 tile_y1 tile_x2 tile_y2 : Z) :
  well_formed (Player.current_map self) ->
  far_edge next_x (Player.rect_width self) = Ok x_far ->
  far_edge next_y (Player.rect_height self) = Ok y_far ->
  tile_of next_x = Ok tile_x1 -> tile_of next_y = Ok tile_y1 ->
  tile_of x_far = Ok tile_x2 -> tile_of y_far = Ok tile_y2 ->
  exists blocked,
    Player._check_collision md self next_x next_y = Ok blocked /\
    (blocked = true <->
     wall_at md (Player.current_map self) (tile_x1, tile_y1) \/
     wall_at md (Player.current_map self) (tile_x1, tile_y2) \/
     wall_at md (Player.current_map self) (tile_x2, tile_y1) \/
     wall_at md (Player.current_map self) (tile_x2, tile_y2)).
Proof.
  intros Hwf Hxf Hyf Hx1 Hy1 Hx2 Hy2.
  unfold Player._check_collision.
  unfold tile_of in *. unfold far_edge in *.
  rewrite Hx1, Hy1. simpl. rewrite Hxf. simpl. rewrite Hx2. simpl.
  rewrite Hyf. simpl. rewrite Hy2. simpl.
  destruct (scan_corners_spec (Player.current_map self)
              [(tile_x1, tile_y1); (tile_x1, tile_y2);
               (tile_x2, tile_y1); (tile_x2, tile_y2)] Hwf) as (b & Hb & Hiff).
  exists b. split; [exact Hb |]. rewrite Hiff.
  rewrite !Exists_cons, Exists_nil. unfold wall_at. tauto.
Qed.

End Collision.

Lemma well_formed_sample_map : well_formed sample_map.
Proof. split; [reflexivity | repeat constructor]. Qed.

Lemma well_formed_open_map : well_formed open_map.
Proof. split; [reflexivity | repeat constructor]. Qed.

Lemma check_collision_four_corners_witness :
  Player._check_collision sample_data sample_player
    (Py.PFloat (Py.lit 30)) (Py.PInt 32) = Ok true.
Proof.
  assert (Hxf : far_edge (Py.PFloat (Py.lit 30)) (Player.rect_width sample_player)
                = Ok (Py.PFloat (Py.lit 61))) by (vm_compute; reflexivity).
  assert (Hyf : far_edge (Py.PInt 32) (Player.rect_height sample_player)
                = Ok (Py.PInt 63)) by (vm_compute; reflexivity).
  assert (Hx1 : tile_of (Py.PFloat (Py.lit 30)) = Ok 0) by (vm_compute; reflexivity).
  assert (Hy1 : tile_of (Py.PInt 32) = Ok 1) by (vm_compute; reflexivity).
  assert (Hx2 : tile_of (Py.PFloat (Py.lit 61)) = Ok 1) by (vm_compute; reflexivity).
  assert (Hy2 : tile_of (Py.PInt 63) = Ok 1) by (vm_compute; reflexivity).
  destruct (check_collision_four_corners sample_data sample_player
              _ _ _ _ _ _ _ _ well_formed_sample_map Hxf Hyf Hx1 Hy1 Hx2 Hy2)
    as (blocked & Hrun & Hiff).
  rewrite Hrun. f_equal. apply Hiff. left.
  unfold wall_at. simpl. repeat split; try lia.
Defined.

(** A box wholly outside the grid is never blocked. *)
Lemma check_collision_outside :
  Player._check_collision sample_data sample_player
    (Py.PFloat (Py.lit (-100))) (Py.PInt 32) = Ok false.
Proof. vm_compute. reflexivity. Qed.

(** ** Axis-separated movement *)

Section Movement.

Variable md : map_data.

(** The collision test reads the map and the size of the box only. *)
Lemma check_collision_frame (self other : Player.t) (x y : Py.num) :
  Player.current_map other = Player.current_map self ->
  Player.rect_width other = Player.rect_width self ->
  Player.rect_height other = Player.rect_height self ->
  Player._check_collision md other x y = Player._check_collision md self x y.
Proof.
  intros Hm Hw Hh. unfold Player._check_collision. rewrite Hm, Hw, Hh. reflexivity.
Qed.

Lemma move_axis_separated (self self' : Player.t) (dx dy : Py.num) :
  Player.move md self dx dy = Ok self' ->
  exists next_x next_y blocked_x blocked_y,
    Py.add (Player.world_x self) dx = Ok next_x /\
    Player._check_collision md self next_x (Player.world_y self) = Ok blocked_x /\
    Player.world_x self' = (if blocked_x then Player.world_x self else next_x) /\
    Py.add (Player.world_y self) dy = Ok next_y /\
    Player._check_collision md self (Player.world_x self') next_y = Ok blocked_y /\
    Player.world_y self' = (if blocked_y then Player.world_y self else next_y).
Proof.
  unfold Player.move. intros H.
  bind_inv H. rename a into next_x, Ha into Hnx.
  bind_inv H. rename a into blocked_x, Ha into Hbx.
  bind_inv H. rename a into mid, Ha into Hmid.
  bind_inv H. rename a into next_y, Ha into Hny.
  bind_inv H. rename a into blocked_y, Ha into Hby.
  assert (Hmid' : Player.world_x mid = (if blocked_x then Player.world_x self else next_x)
                  /\ Player.world_y mid = Player.world_y self
                  /\ Player.current_map mid = Player.current_map self
                  /\ Player.rect_width mid = Player.rect_width self
                  /\ Player.rect_height mid = Player.rect_height self).
  { destruct blocked_x; simpl in Hmid.
    - inversion Hmid. repeat split; reflexivity.
    - rewrite Hnx in Hmid. simpl in Hmid. inversion Hmid. repeat split; reflexivity. }
  destruct Hmid' as (Hx & Hy & Hm & Hw & Hh).
  rewrite (check_collision_frame self mid _ _ Hm Hw Hh) in Hby.
  rewrite Hy in Hny.
  exists next_x, next_y, blocked_x, blocked_y.
  destruct blocked_y; simpl in H.
  - inversion H; subst self'. rewrite Hx in *. repeat split; assumption.
  - rewrite Hy, Hny in H. simpl in H. inversion H; subst self'. simpl.
    rewrite Hx in *. repeat split; assumption.
Qed.

(** C2. In a tick that moves by [(dx, dy)], [update] tries the x
    displacement at the current y and commits it iff that box is not
    blocked; it then tries the y displacement at the x just settled and
    commits it iff that box is not blocked; the world clamp follows.  So
    an axis that is clear advances even when the other one is blocked. *)
Theorem update_axis_separated (self self' : Player.t) (dx dy : Py.num) :
  Player.displacement self = Ok (dx, dy, true) ->
  Player.update md self = Ok self' ->
  exists next_x next_y blocked_x blocked_y,
    Py.add (Player.world_x self) dx = Ok next_x /\
    Player._check_collision md self next_x (Player.world_y self) = Ok blocked_x /\
    let settled_x := if blocked_x then Player.world_x self else next_x in
    Py.add (Player.world_y self) dy = Ok next_y /\
    Player._check_collision md self settled_x next_y = Ok blocked_y /\
    let settled_y := if blocked_y then Player.world_y self else next_y in
    Player.world_x self' = clamp_x self settled_x /\
    Player.world_y self' = clamp_y self settled_y.
Proof.
  intros Hd H. unfold Player.update in H. rewrite Hd in H. simpl in H.
  bind_inv H. rename a into moved, Ha into Hmove.
  inversion H; subst self'; clear H.
  destruct (move_frame md self moved dx dy Hmove) as (Hm & Hw & Hh).
  destruct (move_axis_separated self moved dx dy Hmove)
    as (next_x & next_y & blocked_x & blocked_y & Hnx & Hbx & Hx & Hny & Hby & Hy).
  exists next_x, next_y, blocked_x, blocked_y.
  rewrite Hx in Hby.
  repeat split; try assumption.
  - unfold clamp_x, map_max_x, Player.clamp. simpl. rewrite Hx, Hm, Hw. reflexivity.
  - unfold clamp_y, map_max_y, Player.clamp. simpl. rewrite Hy, Hm, Hh. reflexivity.
Qed.

End Movement.

Lemma update_axis_separated_witness :
  exists self' dx dy next_x next_y,
    Player.update sample_data sliding_player = Ok self' /\
    Py.add (Player.world_x sliding_player) dx = Ok next_x /\
    Player._check_collision sample_data sliding_player next_x
      (Player.world_y sliding_player) = Ok true /\
    Py.add (Player.world_y sliding_player) dy = Ok next_y /\
    Player._check_collision sample_data sliding_player
      (Player.world_x sliding_player) next_y = Ok false /\
    Player.world_x self' = Player.world_x sliding_player /\
    Player.world_y self' = next_y.
Proof.
  match eval vm_compute in (Player.displacement sliding_player) with
  | Ok (?dx, ?dy, _) =>
      match eval vm_compute in (Player.update sample_data sliding_player) with
      | Ok ?p =>
          exists p, dx, dy;
          assert (Hd : Player.displacement sliding_player = Ok (dx, dy, true))
            by (vm_compute; reflexivity);
          assert (Hu : Player.update sample_data sliding_player = Ok p)
            by (vm_compute; reflexivity);
          destruct (update_axis_separated sample_data sliding_player p dx dy Hd Hu)
            as (next_x & next_y & blocked_x & blocked_y
                & Hnx & Hbx & Hny & Hby & Hx & Hy)
      end
  end.
  exists next_x, next_y.
  vm_compute in Hnx. inversion Hnx; subst next_x.
  vm_compute in Hny. inversion Hny; subst next_y.
  vm_compute in Hbx. inversion Hbx; subst blocked_x.
  vm_compute in Hby. inversion Hby; subst blocked_y.
  repeat split; vm_compute; reflexivity.
Defined.

(** ** Speed scaling *)

(** C3. After [handle_input], when both axes of the intent are non-zero
    the displacement that [update] computes has a Euclidean length equal
    to the current speed up to one machine epsilon of relative error
    ([WALK_SPEED], or [SPRINT_SPEED] while sprinting); when exactly one
    axis is non-zero the displacement is the signed speed on that axis
    and zero on the other. *)
Theorem displacement_magnitude (self : Player.t) (im : InputManager.t) :
  configured self ->
  let self' := fst (Player.handle_input self im) in
  let speed := Player.current_speed self' in
  let nonzero_x := Py.ne (Player.change_x self') (Py.PInt 0) in
  let nonzero_y := Py.ne (Player.change_y self') (Py.PInt 0) in
  speed = (if InputManager.is_pressed im "sprint" then SPRINT_SPEED else WALK_SPEED) /\
  (nonzero_x = true -> nonzero_y = true ->
   exists dx dy mag,
     Player.displacement self' = Ok (dx, dy, true) /\
     magnitude dx dy = Ok mag /\ isclose mag speed = true) /\
  (nonzero_x = true -> nonzero_y = false ->
   exists dx,
     Player.displacement self' = Ok (Py.PFloat dx, Py.PInt 0, true) /\
     Player.change_x self' = Py.PFloat dx /\ SFabs dx = speed) /\
  (nonzero_x = false -> nonzero_y = true ->
   exists dy,
     Player.displacement self' = Ok (Py.PInt 0, Py.PFloat dy, true) /\
     Player.change_y self' = Py.PFloat dy /\ SFabs dy = speed).
Proof.
  intros Hc self' speed nonzero_x nonzero_y.
  subst speed nonzero_x nonzero_y. unfold Player.displacement. subst self'.
  rewrite handle_input_change_x, handle_input_change_y.
  rewrite (configured_speed self im Hc).
  split; [reflexivity |].
  input_cases im.
  all: split; [| split]; intros Hx Hy;
    try (vm_compute in Hx; discriminate Hx);
    try (vm_compute in Hy; discriminate Hy).
  all: try (eexists; split; [vm_compute; reflexivity |];
            split; [reflexivity | vm_compute; reflexivity]).
  all: eexists; eexists; eexists;
    split; [vm_compute; reflexivity |];
    split; [vm_compute; reflexivity | vm_compute; reflexivity].
Qed.

Lemma displacement_magnitude_witness :
  let self' := fst (Player.handle_input sample_player
                      (holding ["right"; "down"; "sprint"]%string)) in
  exists dx dy mag,
    Player.displacement self' = Ok (dx, dy, true) /\
    magnitude dx dy = Ok mag /\ isclose mag SPRINT_SPEED = true.
Proof.
  exact (proj1 (proj2
           (displacement_magnitude sample_player
              (holding ["right"; "down"; "sprint"]%string)
              (configured_init _ _ _)))
           eq_refl eq_refl).
Defined.

(** The diagonal displacement is not the speed to the last bit: at walking
    speed its computed length is the float just below 2. *)
Lemma diagonal_walk_length :
  let self' := fst (Player.handle_input sample_player
                      (holding ["right"; "down"]%string)) in
  exists dx dy,
    Player.displacement self' = Ok (dx, dy, true) /\
    magnitude dx dy = Ok (S754_finite false 9007199254740991 (-52)) /\
    WALK_SPEED = S754_finite false 4503599627370496 (-51).
Proof.
  eexists. eexists. split; [vm_compute; reflexivity |].
  split; [vm_compute; reflexivity | vm_compute; reflexivity].
Qed.

(** ** Spawn selection *)

Section SpawnFacts.

Variable md : map_data.

Lemma scan_row_In (row : list Z) (col_index row_index : Z) (pt : Z * Z) :
  In pt (scan_row md row col_index row_index) <->
  exists j, nth_error row j = Some (SPAWN md) /\
            pt = ((col_index + Z.of_nat j) * TILE_SIZE, row_index * TILE_SIZE).
Proof.
  revert col_index. induction row as [| tile_code row IH]; intros col_index; simpl.
  - split; [contradiction | intros (j & Hj & _); destruct j; discriminate].
  - rewrite in_app_iff, IH. split.
    + intros [Hhd | (j & Hj & ->)].
      * destruct (Z.eqb_spec tile_code (SPAWN md)) as [-> | _]; [| contradiction].
        destruct Hhd as [<- | []]. exists 0%nat. split; [reflexivity |].
        f_equal. f_equal. lia.
      * exists (S j). split; [exact Hj |]. f_equal. f_equal. lia.
    + intros (j & Hj & ->). destruct j as [| j]; simpl in Hj.
      * inversion Hj; subst tile_code. rewrite Z.eqb_refl. left. left.
        f_equal. f_equal. lia.
      * right. exists j. split; [exact Hj |]. f_equal. f_equal. lia.
Qed.

Lemma scan_rows_In (rows : list (list Z)) (row_index : Z) (pt : Z * Z) :
  In pt (scan_rows md rows row_index) <->
  exists i j row,
    nth_error rows i = Some row /\ nth_error row j = Some (SPAWN md) /\
    pt = (Z.of_nat j * TILE_SIZE, (row_index + Z.of_nat i) * TILE_SIZE).
Proof.
  revert row_index. induction rows as [| row rows IH]; intros row_index; simpl.
  - split; [contradiction | intros (i & j & r & Hi & _); destruct i; discriminate].
  - rewrite in_app_iff, scan_row_In, IH. split.
    + intros [(j & Hj & ->) | (i & j & r & Hi & Hj & ->)].
      * exists 0%nat, j, row. repeat split; try assumption.
        f_equal. f_equal. lia.
      * exists (S i), j, r. repeat split; try assumption.
        f_equal. f_equal. lia.
    + intros (i & j & r & Hi & Hj & ->). destruct i as [| i]; simpl in Hi.
      * inversion Hi; subst r. left. exists j. split; [exact Hj |].
        f_equal. f_equal. lia.
      * right. exists i, j, r. repeat split; try assumption.
        f_equal. f_equal. lia.
Qed.

(** The collected points are the spawn cells, as pixel coordinates. *)
Lemma spawn_points_In (m : Map.t) (pt : Z * Z) :
  In pt (spawn_points md m) <->
  exists r c, cell m r c = Some (SPAWN md) /\
              pt = (Z.of_nat c * TILE_SIZE, Z.of_nat r * TILE_SIZE).
Proof.
  unfold spawn_points, cell. rewrite scan_rows_In. split.
  - intros (i & j & row & Hi & Hj & ->). exists i, j. rewrite Hi. auto.
  - intros (r & c & Hc & ->).
    destruct (nth_error (Map.map_array m) r) as [row |] eqn:Hr; [| discriminate].
    exists r, c, row. auto.
Qed.

End SpawnFacts.

Section SpawnChoice.

Variable rng : Type.
Variable randbelow : rng -> nat -> nat * rng.
Variable md : map_data.

Lemma get_random_spawn_point_nonempty (m : Map.t) (s : rng) :
  in_range randbelow ->
  spawn_points md m <> [] ->
  let n := List.length (spawn_points md m) in
  exists pt,
    nth_error (spawn_points md m) (fst (randbelow s n)) = Some pt /\
    get_random_spawn_point rng randbelow md m s
    = Ok (pt, snd (randbelow s n), []).
Proof.
  intros Hrange Hne n. subst n.
  unfold get_random_spawn_point, choice.
  destruct (spawn_points md m) as [| p0 pts] eqn:Hpts; [contradiction |].
  specialize (Hrange s (List.length (p0 :: pts))).
  destruct (randbelow s (List.length (p0 :: pts))) as [i s'] eqn:Hdraw.
  simpl fst in *. simpl snd.
  destruct (nth_error (p0 :: pts) i) as [pt |] eqn:Hnth.
  - exists pt. split; reflexivity.
  - apply nth_error_None in Hnth. simpl in Hrange, Hnth. lia.
Qed.

End SpawnChoice.

(** C8. With no spawn tile on the grid the selector returns (0, 0) and
    prints the warning, without raising; with exactly one spawn tile, at
    column 2 and row 3, it returns (64, 96) whatever the random source
    draws; and in general the point returned is the element of the
    row-major list of spawn points at the index drawn from the given
    state of the random source, so a seeded source fixes the choice. *)
Theorem spawn_selection (rng : Type) (randbelow : rng -> nat -> nat * rng)
        (md : map_data) (m : Map.t) (s : rng) :
  in_range randbelow ->
  (no_spawn md m ->
   get_random_spawn_point rng randbelow md m s
   = Ok ((0, 0), s, [no_spawn_warning])) /\
  (only_spawn_at md m 2 3 ->
   exists s', get_random_spawn_point rng randbelow md m s
              = Ok ((64, 96), s', [])) /\
  (spawn_points md m <> [] ->
   let n := List.length (spawn_points md m) in
   exists pt,
     nth_error (spawn_points md m) (fst (randbelow s n)) = Some pt /\
     get_random_spawn_point rng randbelow md m s
     = Ok (pt, snd (randbelow s n), [])).
Proof.
  intros Hrange. split; [| split].
  - intros Hnone. unfold get_random_spawn_point.
    destruct (spawn_points md m) as [| p0 pts] eqn:Hpts; [reflexivity |].
    assert (Hin : In p0 (spawn_points md m)) by (rewrite Hpts; left; reflexivity).
    apply spawn_points_In in Hin. destruct Hin as (r & c & Hc & _).
    exfalso. exact (Hnone r c Hc).
  - intros Honly.
    assert (Hne : spawn_points md m <> []).
    { intros Hnil.
      assert (Hin : In (64, 96) (spawn_points md m)).
      { apply spawn_points_In. exists 3%nat, 2%nat.
        split; [apply Honly; split; reflexivity | reflexivity]. }
      rewrite Hnil in Hin. contradiction. }
    destruct (get_random_spawn_point_nonempty rng randbelow md m s Hrange Hne)
      as (pt & Hnth & Hrun).
    apply nth_error_In in Hnth. apply spawn_points_In in Hnth.
    destruct Hnth as (r & c & Hc & ->).
    apply Honly in Hc. destruct Hc as [-> ->].
    eexists. exact Hrun.
  - apply get_random_spawn_point_nonempty. exact Hrange.
Qed.

Lemma counter_randbelow_in_range : in_range counter_randbelow.
Proof.
  intros s n Hn. simpl. apply Nat.mod_upper_bound. lia.
Qed.

Lemma spawn_map_only_spawn : only_spawn_at sample_data spawn_map 2 3.
Proof.
  intros r c. split.
  - intros H. unfold cell in H.
    do 4 (destruct r as [| r];
          [do 3 (destruct c as [| c];
                 [simpl in H; try discriminate H; auto |]);
           destruct c; discriminate H |]).
    destruct r; discriminate H.
  - intros [-> ->]. reflexivity.
Qed.

Lemma open_map_no_spawn : no_spawn sample_data open_map.
Proof.
  intros r c H. unfold cell in H.
  do 3 (destruct r as [| r];
        [do 3 (destruct c as [| c]; [discriminate H |]);
         destruct c; discriminate H |]).
  destruct r; discriminate H.
Qed.

Lemma spawn_selection_witness :
  get_random_spawn_point nat counter_randbelow sample_data open_map 7%nat
  = Ok ((0, 0), 7%nat, [no_spawn_warning]) /\
  (exists s', get_random_spawn_point nat counter_randbelow sample_data spawn_map 7%nat
              = Ok ((64, 96), s', [])) /\
  get_random_spawn_point nat counter_randbelow sample_data three_spawn_map 7%nat
  = Ok ((64, 0), 8%nat, []).
Proof.
  split; [| split].
  - exact (proj1 (spawn_selection nat counter_randbelow sample_data open_map 7%nat
                    counter_randbelow_in_range) open_map_no_spawn).
  - exact (proj1 (proj2 (spawn_selection nat counter_randbelow sample_data
                           spawn_map 7%nat counter_randbelow_in_range))
             spawn_map_only_spawn).
  - destruct (proj2 (proj2 (spawn_selection nat counter_randbelow sample_data
                              three_spawn_map 7%nat counter_randbelow_in_range)))
      as (pt & Hnth & Hrun); [discriminate |].
    vm_compute in Hnth. inversion Hnth; subst pt. exact Hrun.
Defined.

(** ** Map construction *)

(** The loop of [load_map_tiles] returns exactly when [load_sprite]
    returns on each file it is asked for. *)
Lemma load_map_tiles_from_returns (pf : platform) (entries : list (Z * string)) :
  forall sprites,
    (exists tile_sprites,
        snd (Map.load_map_tiles_from pf entries sprites) = Ok tile_sprites) <->
    Forall (fun entry => sprite_returns pf (snd entry)) entries.
Proof.
  induction entries as [| [code filename] entries IH]; intros sprites.
  - split; [constructor | intros _; eexists; reflexivity].
  - cbn [Map.load_map_tiles_from]. rewrite Forall_cons_iff. cbn [snd].
    unfold load_sprite. unfold sprite_returns at 1.
    destruct (image_load pf (os_path_join pf ASSET_FOLDER filename))
      as [| message | e].
    + specialize (IH (Map.sprites_set sprites code
                        (Sprite (os_path_join pf ASSET_FOLDER filename)))).
      destruct (Map.load_map_tiles_from pf entries _) as [lines' outcome].
      cbn [snd] in *. tauto.
    + destruct (missing_sprite pf) as [e |].
      * cbn [snd]. split.
        -- intros [tile_sprites H]. discriminate H.
        -- intros [H _]. discriminate H.
      * specialize (IH (Map.sprites_set sprites code RedSquare)).
        destruct (Map.load_map_tiles_from pf entries _) as [lines' outcome].
        cbn [snd] in *. tauto.
    + cbn [snd]. split.
      * intros [tile_sprites H]. discriminate H.
      * intros [[] _].
Qed.

(** The dictionary that the loop fills has the keys of the table that
    [Map.draw] reads. *)
Lemma sprites_set_keys (d : list (Z * surface)) (d' : list (Z * string))
      (k : Z) (v : surface) (v' : string) :
  map fst d = map fst d' ->
  map fst (Map.sprites_set d k v) = map fst (Map.assets_set d' k v').
Proof.
  revert d'. induction d as [| [k1 v1] d IH]; intros [| [k2 v2] d'] H;
    try discriminate H.
  - reflexivity.
  - cbn [map fst] in H. injection H as -> H.
    cbn [Map.sprites_set Map.assets_set].
    destruct (k2 =? k); cbn [map fst]; [rewrite H; reflexivity |].
    f_equal. apply IH. exact H.
Qed.

Lemma load_map_tiles_from_keys (pf : platform) (entries : list (Z * string)) :
  forall sprites table tile_sprites,
    map fst sprites = map fst table ->
    snd (Map.load_map_tiles_from pf entries sprites) = Ok tile_sprites ->
    map fst tile_sprites
    = map fst (fold_left (fun sprites entry =>
                            Map.assets_set sprites (fst entry) (snd entry))
                 entries table).
Proof.
  induction entries as [| [code filename] entries IH];
    intros sprites table tile_sprites Hkeys H.
  - cbn in H. injection H as <-. exact Hkeys.
  - cbn [Map.load_map_tiles_from] in H. cbn [fold_left fst snd].
    destruct (load_sprite pf filename) as [lines [image | e]];
      [| discriminate H].
    specialize (IH (Map.sprites_set sprites code image)
                  (Map.assets_set table code filename) tile_sprites
                  (sprites_set_keys sprites table code image filename Hkeys)).
    destruct (Map.load_map_tiles_from pf entries _) as [lines' outcome].
    apply IH. exact H.
Qed.

Lemma load_map_tiles_run_keys (pf : platform) (md : map_data)
      (tile_sprites : list (Z * surface)) :
  snd (Map.load_map_tiles_run pf md) = Ok tile_sprites ->
  map fst tile_sprites = map fst (Map.load_map_tiles md).
Proof.
  apply (load_map_tiles_from_keys pf (Map.TILE_ASSETS md) [] []). reflexivity.
Qed.

(** C9, as stated, fails: a grid whose rows have different lengths is
    accepted, and the map takes its width from the first row. *)
Lemma init_accepts_ragged_grid :
  ~ (forall pf md map_name grid,
        Map.getitem (MAP_COLLECTION md) map_name = Ok grid ->
        ~ rectangular grid ->
        exists e, snd (Map.__init__ pf md map_name) = Raise e).
Proof.
  intros Hclaim.
  destruct (Hclaim all_images ragged_data "map1"%string
              [[1; 1; 1]; [1; 0]; [1]] eq_refl)
    as [e He].
  - intros Hrect.
    specialize (Hrect [1; 1; 1] [1; 0] (or_introl eq_refl) (or_intror (or_introl eq_refl))).
    discriminate Hrect.
  - discriminate He.
Qed.

(** C9, amended. Construction makes no check of the shape of the grid,
    and the shape plays no part in whether it returns.  An unknown name
    raises [KeyError] and a grid without rows raises [IndexError], both
    before any sprite is loaded.  On a named grid with at least one row,
    rectangular or not, the outcome is that of loading the tile sprites:
    construction prints what the loading prints, raises what it raises,
    and returns exactly when [load_sprite] returns on every file of
    [TILE_ASSETS]; the map returned has the number of rows as height and
    the length of the first row as width, and is well formed when the
    grid is rectangular. *)
Theorem init_checks_no_shape (pf : platform) (md : map_data) (map_name : string) :
  (forall e, Map.getitem (MAP_COLLECTION md) map_name = Raise e ->
             Map.__init__ pf md map_name = ([], Raise e) /\ e = KeyError) /\
  (Map.getitem (MAP_COLLECTION md) map_name = Ok [] ->
   Map.__init__ pf md map_name = ([], Raise IndexError)) /\
  (forall row0 rows,
      Map.getitem (MAP_COLLECTION md) map_name = Ok (row0 :: rows) ->
      Map.__init__ pf md map_name
      = (fst (Map.load_map_tiles_run pf md),
         _ <- snd (Map.load_map_tiles_run pf md) ;;
         Ok {| Map.map_array := row0 :: rows;
               Map.height := Z.of_nat (List.length (row0 :: rows));
               Map.width := Z.of_nat (List.length row0) |}) /\
      (snd (Map.__init__ pf md map_name)
       = Ok {| Map.map_array := row0 :: rows;
               Map.height := Z.of_nat (List.length (row0 :: rows));
               Map.width := Z.of_nat (List.length row0) |}
       <-> tiles_load pf md) /\
      (rectangular (row0 :: rows) ->
       well_formed {| Map.map_array := row0 :: rows;
                      Map.height := Z.of_nat (List.length (row0 :: rows));
                      Map.width := Z.of_nat (List.length row0) |})).
Proof.
  unfold Map.__init__. split; [| split].
  - intros e He. rewrite He. split; [reflexivity |].
    induction (MAP_COLLECTION md) as [| [k v] d IH]; simpl in He.
    + inversion He. reflexivity.
    + destruct (String.eqb k map_name); [discriminate | auto].
  - intros He. rewrite He. reflexivity.
  - intros row0 rows He. rewrite He.
    pose proof (load_map_tiles_from_returns pf (Map.TILE_ASSETS md) []) as Hloads.
    fold (Map.load_map_tiles_run pf md) in Hloads. fold (tiles_load pf md) in Hloads.
    destruct (Map.load_map_tiles_run pf md) as [lines [tile_sprites | e]];
      cbn [fst snd bind] in *.
    + split; [reflexivity |]. split.
      * split; [intros _; apply Hloads; eexists; reflexivity | reflexivity].
      * intros Hrect. split; [reflexivity |]. simpl.
        apply Forall_forall. intros row Hrow. f_equal.
        apply Hrect; [left; reflexivity | exact Hrow].
    + split; [reflexivity |]. split.
      * split; [discriminate |].
        intros Hl. apply Hloads in Hl. destruct Hl as [tile_sprites Hl].
        discriminate Hl.
      * intros Hrect. split; [reflexivity |]. simpl.
        apply Forall_forall. intros row Hrow. f_equal.
        apply Hrect; [left; reflexivity | exact Hrow].
Qed.

Lemma init_checks_no_shape_witness :
  Map.__init__ all_images ragged_data "map1"
  = ([], Ok {| Map.map_array := [[1; 1; 1]; [1; 0]; [1]];
               Map.height := 3;
               Map.width := 3 |}) /\
  Map.__init__ all_images ragged_data "map2" = ([], Raise KeyError) /\
  Map.__init__ all_images sample_data "map1" = ([], Ok sample_map) /\
  Map.__init__ no_folder sample_data "map1"
  = ([], Raise (OtherException "FileNotFoundError")) /\
  tiles_load no_display ragged_data /\
  snd (Map.__init__ no_display ragged_data "map1")
  = Ok {| Map.map_array := [[1; 1; 1]; [1; 0]; [1]];
          Map.height := 3;
          Map.width := 3 |}.
Proof.
  assert (Hloads : tiles_load no_display ragged_data)
    by (repeat constructor).
  split; [| split; [| split; [| split; [| split]]]].
  - exact (proj1 (proj2 (proj2 (init_checks_no_shape all_images ragged_data "map1"))
                    [1; 1; 1] [[1; 0]; [1]] eq_refl)).
  - exact (proj1 (proj1 (init_checks_no_shape all_images ragged_data "map2")
                    KeyError eq_refl)).
  - exact (proj1 (proj2 (proj2 (init_checks_no_shape all_images sample_data "map1"))
                    _ _ eq_refl)).
  - exact (proj1 (proj2 (proj2 (init_checks_no_shape no_folder sample_data "map1"))
                    _ _ eq_refl)).
  - exact Hloads.
  - exact (proj2 (proj1 (proj2 (proj2 (proj2 (init_checks_no_shape no_display
                                                  ragged_data "map1"))
                                   [1; 1; 1] [[1; 0]; [1]] eq_refl)))
             Hloads).
Defined.

(** ** When a tick completes *)

(** After [handle_input] the displacement is always defined: the stored
    intent is zero or one of the two configured speeds, signed. *)
Lemma displacement_total (self : Player.t) (im : InputManager.t) :
  configured self ->
  exists dx dy moving,
    Player.displacement (fst (Player.handle_input self im)) = Ok (dx, dy, moving).
Proof.
  intros Hc. unfold Player.displacement.
  rewrite handle_input_change_x, handle_input_change_y.
  rewrite (configured_speed self im Hc).
  input_cases im; eexists; eexists; eexists; vm_compute; reflexivity.
Qed.

(** A tick without movement never raises. *)
Lemma update_idle (md : map_data) (self : Player.t) (dx dy : Py.num) :
  Player.displacement self = Ok (dx, dy, false) ->
  Player.update md self = Ok (Player.clamp self).
Proof.
  intros Hd. unfold Player.update. rewrite Hd. reflexivity.
Qed.

(** A tick with movement completes as soon as its two collision queries
    do. *)
Lemma update_completes (md : map_data) (self : Player.t)
      (dx dy next_x next_y : Py.num) (blocked_x blocked_y : bool) :
  Player.displacement self = Ok (dx, dy, true) ->
  Py.add (Player.world_x self) dx = Ok next_x ->
  Player._check_collision md self next_x (Player.world_y self) = Ok blocked_x ->
  Py.add (Player.world_y self) dy = Ok next_y ->
  Player._check_collision md self
    (if blocked_x then Player.world_x self else next_x) next_y = Ok blocked_y ->
  exists self', Player.update md self = Ok self'.
Proof.
  intros Hd Hnx Hbx Hny Hby.
  unfold Player.update. rewrite Hd. cbn [bind].
  unfold Player.move. rewrite Hnx. cbn [bind]. rewrite Hbx. cbn [bind].
  destruct blocked_x; cbn [bind negb].
  - rewrite Hny. cbn [bind]. rewrite Hby. cbn [bind].
    destruct blocked_y; cbn [negb bind]; eauto.
  - change (Player.world_y (Player.set_world_x self next_x))
      with (Player.world_y self).
    change (Player.world_x (Player.set_world_x self next_x)) with next_x.
    rewrite Hny. cbn [bind].
    rewrite (check_collision_frame md self (Player.set_world_x self next_x))
      by reflexivity.
    rewrite Hby. cbn [bind].
    destruct blocked_y; cbn [negb bind]; eauto.
Qed.

(** The scenario of the specification: the sample room, the player on
    its spawn tile at (32, 32), one tick of walking right: the position
    becomes (34.0, 32) and the camera centres the small map. *)
Lemma tick_right_scenario :
  exists player,
    frame sample_data (holding ["right"]%string) sample_player
    = Ok (player, (Py.PInt 240, Py.PInt 160), []) /\
    Player.world_x player = Py.PFloat (Py.lit 34) /\
    Player.world_y player = Py.PInt 32 /\
    Player.current_direction player = Player.right.
Proof.
  eexists. split; [vm_compute; reflexivity |].
  repeat split; vm_compute; reflexivity.
Qed.

(** On a grid that is not well formed the collision test can raise:
    the bounds come from the first row, the cell from a shorter one. *)
Lemma check_collision_ragged_raises :
  Player._check_collision ragged_data
    (Player.__init__ (Py.PInt 0) (Py.PInt 0)
       {| Map.map_array := [[1; 1; 1]; [1; 0]; [1]];
          Map.height := 3; Map.width := 3 |})
    (Py.PInt 64) (Py.PInt 64) = Raise IndexError.
Proof. vm_compute. reflexivity. Qed.

(** * Further properties of the code *)

(** ** The input manager *)

Lemma get_setitem_same (d : list (string * bool)) (k : string) (v default : bool) :
  InputManager.get (InputManager.setitem d k v) k default = v.
Proof.
  induction d as [| [k' v'] d IH]; simpl.
  - rewrite String.eqb_refl. reflexivity.
  - destruct (String.eqb k' k) eqn:Hk; simpl; rewrite Hk; auto.
Qed.

Lemma get_setitem_other (d : list (string * bool)) (k k2 : string) (v default : bool) :
  k <> k2 ->
  InputManager.get (InputManager.setitem d k v) k2 default
  = InputManager.get d k2 default.
Proof.
  intros Hne. induction d as [| [k' v'] d IH]; simpl.
  - destruct (String.eqb_spec k k2); [contradiction | reflexivity].
  - destruct (String.eqb_spec k' k) as [-> | Hk]; simpl.
    + destruct (String.eqb_spec k k2); [contradiction | reflexivity].
    + destruct (String.eqb k' k2); auto.
Qed.

Lemma get_setitem (d : list (string * bool)) (k k2 : string) (v default : bool) :
  InputManager.get (InputManager.setitem d k v) k2 default
  = if String.eqb k k2 then v else InputManager.get d k2 default.
Proof.
  destruct (String.eqb_spec k k2) as [-> | Hne].
  - apply get_setitem_same.
  - apply get_setitem_other. exact Hne.
Qed.

Lemma get_absent (d : list (string * bool)) (k : string) (default : bool) :
  ~ In k (map fst d) -> InputManager.get d k default = default.
Proof.
  induction d as [| [k' v'] d IH]; simpl; intros Hnot; [reflexivity |].
  destruct (String.eqb_spec k' k) as [-> | Hk]; [tauto | apply IH; tauto].
Qed.

(** The reset loop leaves every listed action inactive and the others
    as they were. *)
Lemma get_reset (actions : list string) (d : list (string * bool)) (k : string) :
  InputManager.get
    (fold_left (fun state action => InputManager.setitem state action false)
       actions d) k false
  = if existsb (fun action => String.eqb action k) actions then false
    else InputManager.get d k false.
Proof.
  revert d. induction actions as [| a actions IH]; intros d; simpl; [reflexivity |].
  rewrite IH, get_setitem.
  destruct (String.eqb a k); simpl; [| reflexivity].
  destruct (existsb (fun action => String.eqb action k) actions); reflexivity.
Qed.

(** The binding loop activates the actions of the keys that are down. *)
Lemma get_bindings (keys : InputManager.key -> bool)
      (bindings : list (InputManager.key * string))
      (d : list (string * bool)) (k : string) :
  InputManager.get
    (fold_left
       (fun state binding =>
          if keys (fst binding)
          then InputManager.setitem state (snd binding) true else state)
       bindings d) k false
  = existsb (fun binding => String.eqb (snd binding) k && keys (fst binding)) bindings
    || InputManager.get d k false.
Proof.
  revert d. induction bindings as [| [key action] bindings IH]; intros d; simpl;
    [reflexivity |].
  rewrite IH. destruct (keys key); simpl.
  - rewrite get_setitem. rewrite andb_true_r.
    destruct (String.eqb action k); simpl.
    + rewrite orb_true_r. reflexivity.
    + reflexivity.
  - rewrite andb_false_r. reflexivity.
Qed.

Lemma is_pressed_update (self : InputManager.t)
      (keys : InputManager.key -> bool) (action : string) :
  InputManager.is_pressed (InputManager.update self keys) action
  = existsb (fun binding => String.eqb (snd binding) action && keys (fst binding))
      InputManager.key_map.
Proof.
  unfold InputManager.is_pressed, InputManager.update.
  cbn [InputManager.action_state].
  rewrite get_bindings, get_reset.
  destruct (existsb (fun a => String.eqb a action)
              (map fst (InputManager.action_state self))) eqn:Hin.
  - apply orb_false_r.
  - rewrite get_absent; [apply orb_false_r |].
    intros Hk.
    assert (Hyes : existsb (fun a => String.eqb a action)
                     (map fst (InputManager.action_state self)) = true).
    { apply existsb_exists. exists action.
      split; [exact Hk | apply String.eqb_refl]. }
    congruence.
Qed.

(** X1. After [update], an action is active exactly when one of the keys
    bound to it is down; the state before the call plays no part, and an
    action that no key is bound to is inactive. *)
Theorem update_reads_keyboard (self : InputManager.t)
        (keys : InputManager.key -> bool) (action : string) :
  InputManager.is_pressed (InputManager.update self keys) action
  = existsb (fun binding => String.eqb (snd binding) action && keys (fst binding))
      InputManager.key_map /\
  (forall other : InputManager.t,
      InputManager.is_pressed (InputManager.update other keys) action
      = InputManager.is_pressed (InputManager.update self keys) action) /\
  (~ In action (map snd InputManager.key_map) ->
   InputManager.is_pressed (InputManager.update self keys) action = false).
Proof.
  split; [apply is_pressed_update |]. split.
  - intros other. rewrite !is_pressed_update. reflexivity.
  - intros Hfree. rewrite is_pressed_update.
    destruct (existsb _ InputManager.key_map) eqn:Hex; [| reflexivity].
    apply existsb_exists in Hex. destruct Hex as ([key bound] & Hin & Hb).
    apply andb_prop in Hb. destruct Hb as [Hb _].
    apply String.eqb_eq in Hb. simpl in Hb. subst bound.
    exfalso. apply Hfree. apply (in_map snd) in Hin. exact Hin.
Qed.

Lemma update_reads_keyboard_witness :
  InputManager.is_pressed
    (InputManager.update (holding ["up"; "jump"]%string)
       (fun key => match key with InputManager.K_d => true | _ => false end))
    "jump" = false.
Proof.
  refine (proj2 (proj2 (update_reads_keyboard _ _ "jump")) _).
  simpl. intros H. repeat (destruct H as [H | H]; [discriminate H |]). exact H.
Defined.

Lemma map_fst_setitem (d : list (string * bool)) (k : string) (v : bool) :
  In k (map fst d) -> map fst (InputManager.setitem d k v) = map fst d.
Proof.
  induction d as [| [k' v'] d IH]; simpl; intros Hin; [contradiction |].
  destruct (String.eqb_spec k' k) as [-> | Hne]; simpl; [reflexivity |].
  f_equal. apply IH. destruct Hin as [Heq | Hin]; [contradiction | exact Hin].
Qed.

Lemma map_fst_reset (actions : list string) (d : list (string * bool)) :
  incl actions (map fst d) ->
  map fst (fold_left (fun state action => InputManager.setitem state action false)
             actions d) = map fst d.
Proof.
  revert d. induction actions as [| a actions IH]; intros d Hincl; simpl;
    [reflexivity |].
  assert (Ha : In a (map fst d)) by (apply Hincl; left; reflexivity).
  rewrite IH; [apply map_fst_setitem; exact Ha |].
  rewrite map_fst_setitem by exact Ha.
  intros x Hx. apply Hincl. right. exact Hx.
Qed.

Lemma map_fst_bindings (keys : InputManager.key -> bool)
      (bindings : list (InputManager.key * string)) (d : list (string * bool)) :
  incl (map snd bindings) (map fst d) ->
  map fst (fold_left
             (fun state binding =>
                if keys (fst binding)
                then InputManager.setitem state (snd binding) true else state)
             bindings d) = map fst d.
Proof.
  revert d. induction bindings as [| [key action] bindings IH]; intros d Hincl;
    simpl; [reflexivity |].
  assert (Ha : In action (map fst d)) by (apply Hincl; left; reflexivity).
  assert (Hrest : incl (map snd bindings) (map fst d))
    by (intros x Hx; apply Hincl; right; exact Hx).
  destruct (keys key).
  - rewrite IH; [apply map_fst_setitem; exact Ha |].
    rewrite map_fst_setitem by exact Ha. exact Hrest.
  - apply IH. exact Hrest.
Qed.

(** X2. When the dictionary already has an entry for every bound action,
    as the one [__init__] builds has, [update] neither adds nor drops nor
    reorders its entries: only the booleans change. *)
Theorem update_keeps_actions (self : InputManager.t)
        (keys : InputManager.key -> bool) :
  incl (map snd InputManager.key_map) (map fst (InputManager.action_state self)) ->
  map fst (InputManager.action_state (InputManager.update self keys))
  = map fst (InputManager.action_state self).
Proof.
  intros Hincl. unfold InputManager.update. cbn [InputManager.action_state].
  rewrite map_fst_bindings.
  - apply map_fst_reset. apply incl_refl.
  - rewrite map_fst_reset by apply incl_refl. exact Hincl.
Qed.

Lemma update_keeps_actions_witness :
  map fst (InputManager.action_state
             (InputManager.update InputManager.__init__ (fun _ => true)))
  = ["up"; "down"; "left"; "right"; "sprint"; "action_a"; "action_y"]%string.
Proof.
  refine (update_keeps_actions InputManager.__init__ (fun _ => true) _).
  intros action Hin. simpl in Hin. simpl.
  repeat (destruct Hin as [<- | Hin]; [tauto |]). contradiction.
Defined.

(** X3. From the keyboard to the intent: after [update] and
    [handle_input], the speed is the sprint speed iff a shift key is
    down; the horizontal intent is rightward iff RIGHT or d is down,
    else leftward iff LEFT or a is down, else zero; and likewise
    downward for DOWN or s, else upward for UP or w. *)
Theorem keyboard_to_intent (im : InputManager.t) (keys : InputManager.key -> bool)
        (self : Player.t) :
  configured self ->
  let self' := fst (Player.handle_input self (InputManager.update im keys)) in
  let speed :=
    if keys InputManager.K_LSHIFT || keys InputManager.K_RSHIFT
    then SPRINT_SPEED else WALK_SPEED in
  Player.current_speed self' = speed /\
  Player.change_x self' =
  (if keys InputManager.K_RIGHT || keys InputManager.K_d then Py.PFloat speed
   else if keys InputManager.K_LEFT || keys InputManager.K_a
        then Py.PFloat (SFopp speed) else Py.PInt 0) /\
  Player.change_y self' =
  (if keys InputManager.K_DOWN || keys InputManager.K_s then Py.PFloat speed
   else if keys InputManager.K_UP || keys InputManager.K_w
        then Py.PFloat (SFopp speed) else Py.PInt 0).
Proof.
  intros Hc self' speed. subst self' speed.
  rewrite handle_input_change_x, handle_input_change_y.
  rewrite (configured_speed self (InputManager.update im keys) Hc).
  rewrite !is_pressed_update. simpl. rewrite !orb_false_r.
  repeat split.
Qed.

Lemma keyboard_to_intent_witness :
  let keys := fun key =>
    match key with
    | InputManager.K_a | InputManager.K_RIGHT | InputManager.K_RSHIFT => true
    | _ => false
    end in
  Player.change_x
    (fst (Player.handle_input sample_player
            (InputManager.update InputManager.__init__ keys)))
  = Py.PFloat SPRINT_SPEED.
Proof.
  exact (proj1 (proj2
           (keyboard_to_intent InputManager.__init__
              (fun key =>
                 match key with
                 | InputManager.K_a | InputManager.K_RIGHT
                 | InputManager.K_RSHIFT => true
                 | _ => false
                 end)
              sample_player (configured_init _ _ _)))).
Defined.

(** ** More on [handle_input] *)

(** X4. [handle_input] is idempotent: reading the same snapshot a second
    time changes nothing and prints the same lines, so the intent of a
    tick depends on the snapshot and never on the intent of the tick
    before. *)
Theorem handle_input_idempotent (self : Player.t) (im : InputManager.t) :
  Player.handle_input (fst (Player.handle_input self im)) im
  = Player.handle_input self im /\
  forall other : Player.t,
    Player.walk_speed other = Player.walk_speed self ->
    Player.sprint_speed other = Player.sprint_speed self ->
    Player.change_x (fst (Player.handle_input other im))
    = Player.change_x (fst (Player.handle_input self im)) /\
    Player.change_y (fst (Player.handle_input other im))
    = Player.change_y (fst (Player.handle_input self im)) /\
    Player.current_speed (fst (Player.handle_input other im))
    = Player.current_speed (fst (Player.handle_input self im)).
Proof.
  split.
  - unfold Player.handle_input.
    destruct (InputManager.is_pressed im "action_a");
      destruct (InputManager.is_pressed im "action_y");
      input_cases im; reflexivity.
  - intros other Hw Hs.
    rewrite !handle_input_change_x, !handle_input_change_y, !handle_input_speed.
    rewrite Hw, Hs. repeat split.
Qed.

Lemma handle_input_idempotent_witness :
  Player.change_x
    (fst (Player.handle_input corner_player (holding ["left"; "sprint"]%string)))
  = Player.change_x
      (fst (Player.handle_input sample_player (holding ["left"; "sprint"]%string))).
Proof.
  exact (proj1 (proj2 (handle_input_idempotent sample_player
                         (holding ["left"; "sprint"]%string))
                  corner_player eq_refl eq_refl)).
Defined.

(** X5. [handle_input] never moves the player and never touches its
    map, its box or its two configured speeds; what it prints is one
    line per active action button, A before Y. *)
Theorem handle_input_keeps_position (self : Player.t) (im : InputManager.t) :
  Player.world_x (fst (Player.handle_input self im)) = Player.world_x self /\
  Player.world_y (fst (Player.handle_input self im)) = Player.world_y self /\
  Player.current_map (fst (Player.handle_input self im)) = Player.current_map self /\
  Player.rect_width (fst (Player.handle_input self im)) = Player.rect_width self /\
  Player.rect_height (fst (Player.handle_input self im)) = Player.rect_height self /\
  Player.walk_speed (fst (Player.handle_input self im)) = Player.walk_speed self /\
  Player.sprint_speed (fst (Player.handle_input self im)) = Player.sprint_speed self /\
  snd (Player.handle_input self im) = button_lines im.
Proof.
  destruct (handle_input_frame self im) as (Hx & Hy & Hm & Hw & Hs & Hrw & Hrh).
  split; [exact Hx |]. split; [exact Hy |]. split; [exact Hm |].
  split; [exact Hrw |]. split; [exact Hrh |]. split; [exact Hw |].
  split; [exact Hs |].
  unfold Player.handle_input, button_lines. reflexivity.
Qed.

(** ** More on [update] *)

Section UpdateFrame.

Variable md : map_data.

Lemma same_but_position_refl (p : Player.t) : same_but_position p p.
Proof. unfold same_but_position. repeat split. Qed.

Lemma same_but_position_trans (p q r : Player.t) :
  same_but_position p q -> same_but_position q r -> same_but_position p r.
Proof.
  unfold same_but_position.
  intros (H1 & H2 & H3 & H4 & H5 & H6 & H7 & H8 & H9)
         (G1 & G2 & G3 & G4 & G5 & G6 & G7 & G8 & G9).
  repeat split; congruence.
Qed.

Lemma move_same (self self' : Player.t) (dx dy : Py.num) :
  Player.move md self dx dy = Ok self' -> same_but_position self' self.
Proof.
  unfold Player.move. intros H.
  bind_inv H. rename a into next_x.
  bind_inv H. rename a into blocked_x.
  bind_inv H. rename a into mid, Ha1 into Hmid.
  assert (Hsame : same_but_position mid self).
  { destruct (negb blocked_x).
    - bind_inv Hmid. inversion Hmid. unfold same_but_position. repeat split.
    - inversion Hmid. apply same_but_position_refl. }
  bind_inv H. rename a into next_y.
  bind_inv H. rename a into blocked_y.
  destruct (negb blocked_y).
  - bind_inv H. inversion H.
    apply same_but_position_trans with (q := mid); [| exact Hsame].
    unfold same_but_position. repeat split.
  - inversion H. subst. exact Hsame.
Qed.

(** X6. [update] changes nothing but the position: the facing, the
    stored intent, the three speeds, the map and the box are those of
    the player it was given. *)
Theorem update_changes_position_only (self self' : Player.t) :
  Player.update md self = Ok self' -> same_but_position self' self.
Proof.
  unfold Player.update. intros H.
  bind_inv H. destruct a as [[dx dy] moving]. bind_inv H.
  inversion H; subst self'; clear H.
  apply same_but_position_trans with (q := a).
  - unfold same_but_position, Player.clamp. repeat split.
  - destruct moving.
    + eapply move_same. eassumption.
    + inversion Ha0. apply same_but_position_refl.
Qed.

End UpdateFrame.

Lemma update_changes_position_only_witness :
  exists self',
    Player.update sample_data sliding_player = Ok self' /\
    same_but_position self' sliding_player.
Proof.
  match eval vm_compute in (Player.update sample_data sliding_player) with
  | Ok ?p =>
      exists p;
      assert (Hrun : Player.update sample_data sliding_player = Ok p)
        by (vm_compute; reflexivity)
  end.
  split; [exact Hrun |].
  exact (update_changes_position_only sample_data sliding_player _ Hrun).
Defined.

(** ** The world clamp, once more *)

Lemma compare_int_refl (z : Z) : Py.compare (Py.PInt z) (Py.PInt z) = Some Eq.
Proof. simpl. rewrite Z.compare_refl. reflexivity. Qed.

(** The clamp returns 0, the upper bound, or its argument. *)
Lemma clamp_num_cases (m : Z) (x : Py.num) :
  Py.max (Py.PInt 0) (Py.min x (Py.PInt m)) = Py.PInt 0 \/
  (Py.max (Py.PInt 0) (Py.min x (Py.PInt m)) = Py.PInt m /\ 0 < m) \/
  Py.max (Py.PInt 0) (Py.min x (Py.PInt m)) = x.
Proof.
  unfold Py.min, Py.lt.
  destruct (Py.compare (Py.PInt m) x) as [[| |] |] eqn:Hm.
  2: { unfold Py.max, Py.gt. simpl.
       destruct (Z.compare_spec m 0); auto. }
  all: unfold Py.max, Py.gt;
    destruct (Py.compare x (Py.PInt 0)) as [[| |] |]; auto.
Qed.

(** Clamping a clamped coordinate gives it back. *)
Lemma clamp_num_idempotent (m : Z) (x : Py.num) :
  Py.max (Py.PInt 0)
    (Py.min (Py.max (Py.PInt 0) (Py.min x (Py.PInt m))) (Py.PInt m))
  = Py.max (Py.PInt 0) (Py.min x (Py.PInt m)).
Proof.
  destruct (clamp_num_cases m x) as [H | [[H Hpos] | H]].
  - rewrite H. unfold Py.max, Py.min, Py.gt, Py.lt. simpl.
    destruct (Z.compare_spec m 0) as [-> | Hlt | Hgt]; simpl; try reflexivity.
    destruct (Z.compare_spec m 0); try lia; reflexivity.
  - rewrite H. unfold Py.max, Py.min, Py.gt, Py.lt. simpl.
    rewrite Z.compare_refl. simpl.
    destruct (Z.compare_spec m 0); try lia; reflexivity.
  - rewrite H at 1. reflexivity.
Qed.

(** Inside [[0, m]] the clamp returns a number equal to its argument, and
    the argument itself unless it is a zero. *)
Lemma clamp_num_inside (m : Z) (x : Py.num) :
  between 0 m x ->
  Py.eq (Py.max (Py.PInt 0) (Py.min x (Py.PInt m))) x = true /\
  (Py.gt x (Py.PInt 0) = true ->
   Py.max (Py.PInt 0) (Py.min x (Py.PInt m)) = x).
Proof.
  intros [Hlo Hhi]. unfold Py.le in Hlo, Hhi.
  rewrite compare_int_swap in Hhi.
  assert (Hmin : Py.min x (Py.PInt m) = x).
  { unfold Py.min, Py.lt.
    destruct (Py.compare (Py.PInt m) x) as [[| |] |]; try reflexivity.
    discriminate Hhi. }
  rewrite Hmin. unfold Py.max, Py.gt, Py.eq.
  rewrite (compare_int_swap 0 x).
  destruct (Py.compare (Py.PInt 0) x) as [[| |] |] eqn:H0;
    try discriminate Hlo; cbn [option_map CompOpp].
  - split; [| discriminate]. rewrite H0. reflexivity.
  - split; [| reflexivity].
    destruct x as [z | f].
    + simpl. rewrite Z.compare_refl. reflexivity.
    + destruct f as [s | s | | s mf e]; simpl in *; try discriminate H0.
      * destruct s; reflexivity.
      * rewrite Z.compare_refl.
        destruct s; rewrite Pos.compare_cont_refl; reflexivity.
Qed.

(** A number between two ints orders them. *)
Lemma between_bounds (lo hi : Z) (x : Py.num) : between lo hi x -> lo <= hi.
Proof.
  assert (Hle : forall a b,
             match a ?= b with Lt | Eq => true | Gt => false end = true -> a <= b).
  { intros a b H. destruct (Z.compare_spec a b); try discriminate; lia. }
  assert (Hge : forall a b,
             match CompOpp (a ?= b) with Lt | Eq => true | Gt => false end = true ->
             b <= a).
  { intros a b H. destruct (Z.compare_spec a b); try discriminate; lia. }
  intros [H1 H2]. unfold Py.le in H1, H2.
  destruct x as [z | f]; cbn [Py.compare option_map] in H1, H2.
  - apply Hle in H1. apply Hle in H2. lia.
  - destruct f as [s | s | | s mf e]; cbn [Py.compare_int_float option_map] in H1, H2.
    + apply Hle in H1. apply Hge in H2. lia.
    + destruct s; discriminate.
    + discriminate.
    + destruct (Z.leb_spec 0 e).
      * apply Hle in H1. apply Hge in H2. lia.
      * apply Hle in H1. apply Hge in H2.
        assert (Hp : 0 < 2 ^ (- e)) by (apply Z.pow_pos_nonneg; lia).
        nia.
Qed.

Lemma clamp_idempotent (self : Player.t) :
  Player.clamp (Player.clamp self) = Player.clamp self.
Proof.
  unfold Player.clamp, Player.set_world_x, Player.set_world_y.
  cbn [Player.world_x Player.world_y Player.current_map
       Player.rect_width Player.rect_height].
  rewrite !clamp_num_idempotent. reflexivity.
Qed.

Lemma displacement_clamp (self : Player.t) :
  Player.displacement (Player.clamp self) = Player.displacement self.
Proof. reflexivity. Qed.

(** X7. A tick without movement is stable: once [update] has run on a
    player whose intent is zero, running it again returns the very same
    player, wherever the first run started from. *)
Theorem update_idle_stable (md : map_data) (self self' : Player.t)
        (dx dy : Py.num) :
  Player.displacement self = Ok (dx, dy, false) ->
  Player.update md self = Ok self' ->
  Player.update md self' = Ok self'.
Proof.
  intros Hd Hrun.
  rewrite (update_idle md self dx dy Hd) in Hrun.
  inversion Hrun; subst self'; clear Hrun.
  rewrite (update_idle md (Player.clamp self) dx dy).
  - rewrite clamp_idempotent. reflexivity.
  - rewrite displacement_clamp. exact Hd.
Qed.

Lemma update_idle_stable_witness :
  Player.update sample_data
    (Player.clamp (Player.__init__ (Py.PFloat S754_nan) (Py.PInt 500) open_map))
  = Ok (Player.clamp (Player.__init__ (Py.PFloat S754_nan) (Py.PInt 500) open_map)).
Proof.
  exact (update_idle_stable sample_data
           (Player.__init__ (Py.PFloat S754_nan) (Py.PInt 500) open_map)
           _ (Py.PInt 0) (Py.PInt 0) eq_refl eq_refl).
Defined.

(** X8. Standing still inside the world changes nothing: for a player
    whose intent is zero and whose position is in the world rectangle,
    [update] returns a player at an equal position, identical on every
    coordinate that is above 0, and still inside the world. *)
Theorem update_idle_in_world (md : map_data) (self : Player.t) (dx dy : Py.num) :
  Player.displacement self = Ok (dx, dy, false) ->
  in_world self ->
  exists self',
    Player.update md self = Ok self' /\
    Py.eq (Player.world_x self') (Player.world_x self) = true /\
    Py.eq (Player.world_y self') (Player.world_y self) = true /\
    (Py.gt (Player.world_x self) (Py.PInt 0) = true ->
     Player.world_x self' = Player.world_x self) /\
    (Py.gt (Player.world_y self) (Py.PInt 0) = true ->
     Player.world_y self' = Player.world_y self) /\
    in_world self'.
Proof.
  intros Hd [Hx Hy].
  exists (Player.clamp self). split; [exact (update_idle md self dx dy Hd) |].
  destruct (clamp_num_inside (map_max_x self) (Player.world_x self) Hx) as [Hxe Hxi].
  destruct (clamp_num_inside (map_max_y self) (Player.world_y self) Hy) as [Hye Hyi].
  split; [exact Hxe |]. split; [exact Hye |].
  split; [exact Hxi |]. split; [exact Hyi |].
  apply clamp_in_world.
  apply between_bounds in Hx. apply between_bounds in Hy.
  unfold fits, map_max_x, map_max_y in *. lia.
Qed.

Lemma update_idle_in_world_witness :
  exists self',
    Player.update sample_data sample_player = Ok self' /\
    Player.world_x self' = Py.PInt 32 /\ Player.world_y self' = Py.PInt 32.
Proof.
  assert (Hin : in_world sample_player).
  { unfold in_world, between. repeat split; vm_compute; reflexivity. }
  destruct (update_idle_in_world sample_data sample_player
              (Py.PInt 0) (Py.PInt 0) eq_refl Hin)
    as (self' & Hrun & _ & _ & Hx & Hy & _).
  exists self'. split; [exact Hrun |].
  split; [exact (Hx eq_refl) | exact (Hy eq_refl)].
Defined.

(** ** More on spawn selection *)

Section SpawnMore.

Variable md : map_data.

Lemma scan_row_NoDup (row : list Z) (col_index row_index : Z) :
  NoDup (scan_row md row col_index row_index).
Proof.
  revert col_index. induction row as [| tile_code row IH]; intros col_index; simpl.
  - constructor.
  - apply NoDup_app; [| apply IH |].
    + destruct (tile_code =? SPAWN md); repeat constructor. intros [].
    + intros pt Hhd Htl.
      destruct (tile_code =? SPAWN md); [| contradiction].
      destruct Hhd as [<- | []].
      apply scan_row_In in Htl. destruct Htl as (j & _ & Heq).
      inversion Heq as [Hx]. unfold TILE_SIZE in Hx. lia.
Qed.

Lemma scan_rows_NoDup (rows : list (list Z)) (row_index : Z) :
  NoDup (scan_rows md rows row_index).
Proof.
  revert row_index. induction rows as [| row rows IH]; intros row_index; simpl.
  - constructor.
  - apply NoDup_app; [apply scan_row_NoDup | apply IH |].
    intros pt Hhd Htl.
    apply scan_row_In in Hhd. destruct Hhd as (j & _ & ->).
    apply scan_rows_In in Htl. destruct Htl as (i & j' & r & _ & _ & Heq).
    inversion Heq as [[Hx Hy]]. unfold TILE_SIZE in Hy. lia.
Qed.

(** X9. The candidate list holds the pixel origin of every spawn cell of
    the grid, each exactly once, and nothing else: no spawn tile is
    missed or counted twice when one is drawn from it. *)
Theorem spawn_points_exact (m : Map.t) :
  NoDup (spawn_points md m) /\
  forall pt : Z * Z,
    In pt (spawn_points md m) <->
    exists r c, cell m r c = Some (SPAWN md) /\
                pt = (Z.of_nat c * TILE_SIZE, Z.of_nat r * TILE_SIZE).
Proof.
  split.
  - unfold spawn_points. apply scan_rows_NoDup.
  - intros pt. apply spawn_points_In.
Qed.

End SpawnMore.

Section SpawnPlayer.

Variable rng : Type.
Variable randbelow : rng -> nat -> nat * rng.
Variable md : map_data.

(** With a source that answers in range the selector always returns. *)
Lemma get_random_spawn_point_cases (m : Map.t) (s : rng) :
  in_range randbelow ->
  (spawn_points md m = [] /\
   get_random_spawn_point rng randbelow md m s
   = Ok ((0, 0), s, [no_spawn_warning])) \/
  (exists pt,
      In pt (spawn_points md m) /\
      get_random_spawn_point rng randbelow md m s
      = Ok (pt, snd (randbelow s (List.length (spawn_points md m))), [])).
Proof.
  intros Hrange.
  destruct (spawn_points md m) as [| p0 pts] eqn:Hpts.
  - left. split; [reflexivity |].
    unfold get_random_spawn_point. rewrite Hpts. reflexivity.
  - right.
    destruct (get_random_spawn_point_nonempty rng randbelow md m s Hrange)
      as (pt & Hnth & Hrun).
    { rewrite Hpts. discriminate. }
    rewrite Hpts in Hnth, Hrun.
    exists pt. split; [| exact Hrun].
    eapply nth_error_In. exact Hnth.
Qed.

(** X10. The warning is printed exactly when the grid has no spawn tile;
    in that case the random source is left untouched, and otherwise it
    is asked once, for a number below the count of spawn tiles. *)
Theorem spawn_warning_iff_no_spawn (m : Map.t) (s : rng) :
  in_range randbelow ->
  exists pt s' out,
    get_random_spawn_point rng randbelow md m s = Ok (pt, s', out) /\
    (no_spawn md m -> out = [no_spawn_warning] /\ s' = s /\ pt = (0, 0)) /\
    (~ no_spawn md m ->
     out = [] /\
     s' = snd (randbelow s (List.length (spawn_points md m))) /\
     In pt (spawn_points md m)).
Proof.
  intros Hrange.
  destruct (get_random_spawn_point_cases m s Hrange)
    as [[Hnil Hrun] | (pt & Hin & Hrun)].
  - exists (0, 0), s, [no_spawn_warning]. split; [exact Hrun |].
    split; [auto |]. intros Hsome. exfalso. apply Hsome.
    intros r c Hc.
    assert (Hin : In (Z.of_nat c * TILE_SIZE, Z.of_nat r * TILE_SIZE)
                     (spawn_points md m)).
    { apply spawn_points_In. exists r, c. auto. }
    rewrite Hnil in Hin. contradiction.
  - exists pt, (snd (randbelow s (List.length (spawn_points md m)))), [].
    split; [exact Hrun |]. split; [| auto].
    intros Hnone. exfalso.
    apply spawn_points_In in Hin. destruct Hin as (r & c & Hc & _).
    exact (Hnone r c Hc).
Qed.

(** The point selected lies on the grid, a tile away from its far edges. *)
Lemma spawn_point_in_map (m : Map.t) (s s' : rng) (x y : Z) (out : list string) :
  in_range randbelow ->
  well_formed m ->
  1 <= Map.width m -> 1 <= Map.height m ->
  get_random_spawn_point rng randbelow md m s = Ok ((x, y), s', out) ->
  0 <= x <= Map.width m * TILE_SIZE - TILE_SIZE /\
  0 <= y <= Map.height m * TILE_SIZE - TILE_SIZE.
Proof.
  intros Hrange [Hh Hrows] Hw1 Hh1 Hrun.
  destruct (get_random_spawn_point_cases m s Hrange)
    as [[_ Hrun'] | (pt & Hin & Hrun')];
    rewrite Hrun' in Hrun; inversion Hrun; subst.
  - unfold TILE_SIZE. lia.
  - apply spawn_points_In in Hin. destruct Hin as (r & c & Hc & Heq).
    inversion Heq; subst x y. unfold cell in Hc.
    destruct (nth_error (Map.map_array m) r) as [row |] eqn:Hr; [| discriminate].
    assert (Hrlt : (r < List.length (Map.map_array m))%nat)
      by (apply nth_error_Some; congruence).
    assert (Hclt : (c < List.length row)%nat)
      by (apply nth_error_Some; congruence).
    assert (Hlen : Map.width m = Z.of_nat (List.length row)).
    { rewrite Forall_forall in Hrows. apply Hrows.
      eapply nth_error_In. exact Hr. }
    unfold TILE_SIZE. lia.
Qed.

(** X11. A player created at the selected spawn point starts inside the
    world: on a well-formed map with at least one row and one column,
    whatever the selector returns is a position at which the player's
    box lies within the map. *)
Theorem spawned_player_in_world (m : Map.t) (s s' : rng) (x y : Z)
        (out : list string) :
  in_range randbelow ->
  well_formed m ->
  1 <= Map.width m -> 1 <= Map.height m ->
  get_random_spawn_point rng randbelow md m s = Ok ((x, y), s', out) ->
  in_world (Player.__init__ (Py.PInt x) (Py.PInt y) m).
Proof.
  intros Hrange Hwf Hw1 Hh1 Hrun.
  pose proof (spawn_point_in_map m s s' x y out Hrange Hwf Hw1 Hh1 Hrun) as Hpos.
  unfold in_world, map_max_x, map_max_y. simpl.
  split; apply between_int; tauto.
Qed.

(** X20. The session invariant: on a well-formed map with at least one
    row and one column, the player created at the selected spawn point
    is inside the world at the start and after every completed tick,
    whatever the inputs of the run. *)
Theorem session_in_world (m : Map.t) (s s' : rng) (x y : Z) (out : list string)
        (inputs : list InputManager.t) (player : Player.t) :
  in_range randbelow ->
  well_formed m ->
  1 <= Map.width m -> 1 <= Map.height m ->
  get_random_spawn_point rng randbelow md m s = Ok ((x, y), s', out) ->
  ticks md inputs (Player.__init__ (Py.PInt x) (Py.PInt y) m) = Ok player ->
  in_world player /\ Player.current_map player = m.
Proof.
  intros Hrange Hwf Hw1 Hh1 Hspawn Hrun.
  pose proof (spawn_point_in_map m s s' x y out Hrange Hwf Hw1 Hh1 Hspawn) as Hpos.
  assert (Hfit : fits (Player.__init__ (Py.PInt x) (Py.PInt y) m)).
  { unfold fits. simpl. unfold TILE_SIZE. lia. }
  assert (Hmap : forall inputs' start finish,
             ticks md inputs' start = Ok finish ->
             Player.current_map finish = Player.current_map start).
  { induction inputs' as [| im inputs' IH]; intros start finish H;
      cbn [ticks] in H.
    - inversion H. reflexivity.
    - bind_inv H. rewrite (IH _ _ H).
      destruct (update_frame md _ _ Ha) as (Hm & _).
      destruct (handle_input_frame start im) as (_ & _ & Hm' & _).
      congruence. }
  split; [| exact (Hmap _ _ _ Hrun)].
  destruct inputs as [| im inputs].
  - simpl in Hrun. inversion Hrun; subst player.
    unfold in_world, map_max_x, map_max_y. simpl.
    split; apply between_int; tauto.
  - apply (ticks_in_world md (im :: inputs)
             (Player.__init__ (Py.PInt x) (Py.PInt y) m) player);
      [discriminate | exact Hfit | exact Hrun].
Qed.

End SpawnPlayer.

Lemma spawn_warning_iff_no_spawn_witness :
  exists pt s' out,
    get_random_spawn_point nat counter_randbelow sample_data open_map 7%nat
    = Ok (pt, s', out) /\ out = [no_spawn_warning] /\ s' = 7%nat.
Proof.
  destruct (spawn_warning_iff_no_spawn nat counter_randbelow sample_data
              open_map 7%nat counter_randbelow_in_range)
    as (pt & s' & out & Hrun & Hnone & _).
  destruct (Hnone open_map_no_spawn) as (Hout & Hs & _).
  exists pt, s', out. auto.
Defined.

Lemma spawned_player_in_world_witness :
  in_world (Player.__init__ (Py.PInt 64) (Py.PInt 0) three_spawn_map).
Proof.
  refine (spawned_player_in_world nat counter_randbelow sample_data
            three_spawn_map 7%nat 8%nat 64 0 []
            counter_randbelow_in_range _ _ _ _).
  - split; [reflexivity | repeat constructor].
  - vm_compute. discriminate.
  - vm_compute. discriminate.
  - vm_compute. reflexivity.
Defined.

Lemma session_in_world_witness :
  exists player,
    ticks sample_data
      [holding ["right"]%string; holding ["right"; "down"; "sprint"]%string]
      (Player.__init__ (Py.PInt 64) (Py.PInt 0) three_spawn_map) = Ok player /\
    in_world player.
Proof.
  match eval vm_compute in
        (ticks sample_data
           [holding ["right"]%string; holding ["right"; "down"; "sprint"]%string]
           (Player.__init__ (Py.PInt 64) (Py.PInt 0) three_spawn_map)) with
  | Ok ?p =>
      exists p;
      assert (Hrun : ticks sample_data
                       [holding ["right"]%string;
                        holding ["right"; "down"; "sprint"]%string]
                       (Player.__init__ (Py.PInt 64) (Py.PInt 0) three_spawn_map)
                     = Ok p) by (vm_compute; reflexivity)
  end.
  split; [exact Hrun |].
  refine (proj1 (session_in_world nat counter_randbelow sample_data
                   three_spawn_map 7%nat 8%nat 64 0 [] _ _
                   counter_randbelow_in_range _ _ _ _ Hrun)).
  - split; [reflexivity | repeat constructor].
  - vm_compute. discriminate.
  - vm_compute. discriminate.
  - vm_compute. reflexivity.
Defined.

(** ** More on the collision test *)

Section CollisionMore.

Variable md : map_data.

Lemma scan_corners_outside (m : Map.t) (corners : list (Z * Z)) :
  Forall (fun corner => ~ in_grid m corner) corners ->
  Player.scan_corners md m corners = Ok false.
Proof.
  induction 1 as [| [tx ty] rest Hout _ IH]; simpl; [reflexivity |].
  destruct ((0 <=? ty) && (ty <? Map.height m) && (0 <=? tx)
            && (tx <? Map.width m)) eqn:Hin; [| exact IH].
  exfalso. apply Hout. simpl.
  rewrite !andb_true_iff, !Z.leb_le, !Z.ltb_lt in Hin. lia.
Qed.

(** X12. A box whose four sampled tiles all fall outside the grid is
    never blocked, and the test reads no cell for it: it returns [False]
    on any map, a malformed one included. *)
Theorem check_collision_outside_grid
        (self : Player.t) (next_x next_y x_far y_far : Py.num)
        (tile_x1 tile_y1 tile_x2 tile_y2 : Z) :
  far_edge next_x (Player.rect_width self) = Ok x_far ->
  far_edge next_y (Player.rect_height self) = Ok y_far ->
  tile_of next_x = Ok tile_x1 -> tile_of next_y = Ok tile_y1 ->
  tile_of x_far = Ok tile_x2 -> tile_of y_far = Ok tile_y2 ->
  ~ in_grid (Player.current_map self) (tile_x1, tile_y1) ->
  ~ in_grid (Player.current_map self) (tile_x1, tile_y2) ->
  ~ in_grid (Player.current_map self) (tile_x2, tile_y1) ->
  ~ in_grid (Player.current_map self) (tile_x2, tile_y2) ->
  Player._check_collision md self next_x next_y = Ok false.
Proof.
  intros Hxf Hyf Hx1 Hy1 Hx2 Hy2 H11 H12 H21 H22.
  unfold Player._check_collision. unfold tile_of, far_edge in *.
  rewrite Hx1, Hy1. cbn [bind]. rewrite Hxf. cbn [bind]. rewrite Hx2. cbn [bind].
  rewrite Hyf. cbn [bind]. rewrite Hy2. cbn [bind].
  apply scan_corners_outside. repeat constructor; assumption.
Qed.

End CollisionMore.

Lemma check_collision_outside_grid_witness :
  Player._check_collision ragged_data
    (Player.__init__ (Py.PInt 0) (Py.PInt 0)
       {| Map.map_array := [[1; 1; 1]; [1; 0]; [1]];
          Map.height := 3; Map.width := 3 |})
    (Py.PFloat (Py.lit (-100))) (Py.PInt 200) = Ok false.
Proof.
  refine (check_collision_outside_grid ragged_data _ _ _
            (Py.PFloat (Py.lit (-69))) (Py.PInt 231) (-4) 6 (-3) 7
            _ _ _ _ _ _ _ _ _ _);
    try (vm_compute; reflexivity);
    simpl; lia.
Defined.

(** ** More on the camera *)

(** The camera's clamp on an axis where the map is at least as large as
    the viewport: a target in range is returned as it is, one above 0 or
    unordered gives 0, one below [screen - map_pixels] gives that bound. *)
Lemma camera_clamp_cases (screen map_pixels : Z) (target : Py.num) :
  screen <= map_pixels ->
  (Py.le (Py.PInt (screen - map_pixels)) target = true ->
   Py.lt target (Py.PInt 0) = true ->
   camera_clamp screen map_pixels target = target) /\
  (Py.lt target (Py.PInt 0) = false ->
   Py.lt target (Py.PInt (screen - map_pixels)) = false ->
   camera_clamp screen map_pixels target = Py.PInt 0) /\
  (Py.lt target (Py.PInt (screen - map_pixels)) = true ->
   camera_clamp screen map_pixels target = Py.PInt (screen - map_pixels)).
Proof.
  intros Hle. unfold camera_clamp.
  destruct (Z.ltb_spec map_pixels screen) as [Hlt | _]; [lia |].
  set (lo := screen - map_pixels). assert (Hlo : lo <= 0) by (unfold lo; lia).
  unfold Py.min, Py.max, Py.lt, Py.gt, Py.le.
  rewrite (compare_int_swap lo target).
  destruct (Py.compare (Py.PInt lo) target) as [[| |] |] eqn:Hc;
    cbn [option_map CompOpp].
  - split; [| split]; try discriminate.
    + intros _ H0. rewrite (compare_int_swap 0 target) in *.
      destruct (Py.compare (Py.PInt 0) target) as [[| |] |];
        cbn [option_map CompOpp] in *; try discriminate; reflexivity.
    + intros H0 _. rewrite (compare_int_swap 0 target) in *.
      destruct (Py.compare (Py.PInt 0) target) as [[| |] |];
        cbn [option_map CompOpp] in *; try discriminate; reflexivity.
  - split; [| split]; try discriminate.
    + intros _ H0. rewrite (compare_int_swap 0 target) in *.
      destruct (Py.compare (Py.PInt 0) target) as [[| |] |];
        cbn [option_map CompOpp] in *; try discriminate; reflexivity.
    + intros H0 _. rewrite (compare_int_swap 0 target) in *.
      destruct (Py.compare (Py.PInt 0) target) as [[| |] |];
        cbn [option_map CompOpp] in *; try discriminate; reflexivity.
  - split; [| split]; try discriminate.
    intros _. simpl.
    destruct (Z.compare_spec lo 0) as [H0 | H0 | H0]; try lia;
      [rewrite H0 |]; reflexivity.
  - split; [| split]; try discriminate.
    intros H0 _. rewrite (compare_int_swap 0 target) in *.
    destruct (Py.compare (Py.PInt 0) target) as [[| |] |];
      cbn [option_map CompOpp] in *; try discriminate; reflexivity.
Qed.

(** X13. On an axis where the map is at least as large as the viewport
    the camera follows the player: while the focus point minus the
    player's coordinate lies in [[viewport - map_pixels, 0)] the offset is
    exactly that value, so the player is drawn at the focus point; nearer
    to the map's edges the offset stops at 0 or at
    [viewport - map_pixels]. *)
Theorem camera_follows_player (player : Player.t) :
  exists ox oy,
    camera player = Ok (ox, oy) /\
    (SCREEN_WIDTH <= Map.width (Player.current_map player) * TILE_SIZE ->
     camera_follows SCREEN_WIDTH
       (Map.width (Player.current_map player) * TILE_SIZE)
       (focus_minus CAMERA_X (Player.world_x player)) ox) /\
    (SCREEN_HEIGHT <= Map.height (Player.current_map player) * TILE_SIZE ->
     camera_follows SCREEN_HEIGHT
       (Map.height (Player.current_map player) * TILE_SIZE)
       (focus_minus CAMERA_Y (Player.world_y player)) oy).
Proof.
  unfold camera. rewrite camera_target_total. cbn [bind].
  eexists. eexists. split; [reflexivity |].
  split; intros Hbig; unfold camera_follows; apply camera_clamp_cases; exact Hbig.
Qed.

Lemma camera_follows_player_witness :
  camera roaming_player = Ok (Py.PFloat (Py.lit (-80)), Py.PFloat (Py.lit (-60))).
Proof.
  destruct (camera_follows_player roaming_player) as (ox & oy & Hrun & Hx & Hy).
  rewrite Hrun.
  assert (Hw : SCREEN_WIDTH <= Map.width (Player.current_map roaming_player) * TILE_SIZE)
    by (vm_compute; discriminate).
  assert (Hh : SCREEN_HEIGHT <= Map.height (Player.current_map roaming_player) * TILE_SIZE)
    by (vm_compute; discriminate).
  destruct (Hx Hw) as (Hx1 & _). destruct (Hy Hh) as (Hy1 & _).
  rewrite Hx1, Hy1 by (vm_compute; reflexivity).
  vm_compute. reflexivity.
Defined.

(** ** One pass of the game loop *)

(** X14. A pass of the loop body completes exactly when [update] does on
    the player [handle_input] returns; it then yields that player, inside
    the world when the map is at least as large as its box, a camera
    offset within its bounds on both axes, and the lines of the action
    buttons. *)
Theorem frame_invariants (md : map_data) (im : InputManager.t) (player : Player.t) :
  (forall e, Player.update md (fst (Player.handle_input player im)) = Raise e ->
             frame md im player = Raise e) /\
  (forall player',
      Player.update md (fst (Player.handle_input player im)) = Ok player' ->
      exists ox oy,
        frame md im player = Ok (player', (ox, oy), button_lines im) /\
        camera_axis_ok SCREEN_WIDTH
          (Map.width (Player.current_map player) * TILE_SIZE) ox /\
        camera_axis_ok SCREEN_HEIGHT
          (Map.height (Player.current_map player) * TILE_SIZE) oy /\
        (fits player -> in_world player')).
Proof.
  unfold frame.
  pose proof (handle_input_frame player im) as (_ & _ & Hm & _ & _ & Hw & Hh).
  assert (Hout : snd (Player.handle_input player im) = button_lines im)
    by reflexivity.
  destruct (Player.handle_input player im) as [input_player out].
  cbn [fst snd] in *. subst out.
  split.
  - intros e He. rewrite He. reflexivity.
  - intros player' Hrun. rewrite Hrun. cbn [bind].
    destruct (update_frame md input_player player' Hrun)
      as (Hm' & Hw' & Hh' & moved & Hclamp & Hm2 & Hw2 & Hh2).
    unfold camera. rewrite camera_target_total. cbn [bind].
    eexists. eexists. split; [reflexivity |].
    rewrite Hm', Hm.
    assert (Heven : forall n, Z.even (SCREEN_WIDTH - n * TILE_SIZE) = true /\
                              Z.even (SCREEN_HEIGHT - n * TILE_SIZE) = true).
    { intros n. unfold SCREEN_WIDTH, SCREEN_HEIGHT, TILE_SIZE.
      replace (640 - n * 32) with (2 * (320 - n * 16)) by lia.
      replace (480 - n * 32) with (2 * (240 - n * 16)) by lia.
      rewrite !Z.even_mul. split; reflexivity. }
    split; [apply camera_clamp_ok; apply Heven |].
    split; [apply camera_clamp_ok; apply Heven |].
    intros Hfit. subst player'. apply clamp_in_world.
    unfold fits in *. rewrite Hm2, Hw2, Hh2, Hm, Hw, Hh. exact Hfit.
Qed.

Lemma frame_invariants_witness :
  exists player' ox oy,
    frame sample_data (holding ["right"; "action_y"]%string) sample_player
    = Ok (player', (ox, oy), ["Use Button (Y) Pressed!"%string]) /\
    in_world player'.
Proof.
  match eval vm_compute in
        (Player.update sample_data
           (fst (Player.handle_input sample_player
                   (holding ["right"; "action_y"]%string)))) with
  | Ok ?p =>
      assert (Hrun : Player.update sample_data
                       (fst (Player.handle_input sample_player
                               (holding ["right"; "action_y"]%string))) = Ok p)
        by (vm_compute; reflexivity);
      destruct (proj2 (frame_invariants sample_data
                         (holding ["right"; "action_y"]%string) sample_player)
                  p Hrun) as (ox & oy & Hframe & _ & _ & Hin);
      exists p, ox, oy
  end.
  split; [exact Hframe |].
  apply Hin. split; vm_compute; discriminate.
Defined.

(** ** Drawing the map *)

Lemma range_In (a b i : Z) : In i (Map.range a b) <-> a <= i < b.
Proof.
  unfold Map.range. rewrite in_map_iff. split.
  - intros (k & <- & Hk). apply in_seq in Hk. lia.
  - intros Hi. exists (Z.to_nat (i - a)). split; [lia |].
    apply in_seq. lia.
Qed.

Lemma range_length (a b : Z) : List.length (Map.range a b) = Z.to_nat (b - a).
Proof. unfold Map.range. rewrite length_map, length_seq. reflexivity. Qed.

Lemma window_In (start_row end_row start_col end_col r c : Z) :
  In (r, c) (Map.window start_row end_row start_col end_col) <->
  start_row <= r < end_row /\ start_col <= c < end_col.
Proof.
  unfold Map.window. rewrite in_flat_map. split.
  - intros (r' & Hr & Hc). apply in_map_iff in Hc.
    destruct Hc as (c' & Heq & Hc). inversion Heq; subst r' c'.
    apply range_In in Hr. apply range_In in Hc. auto.
  - intros [Hr Hc]. exists r. split; [apply range_In; exact Hr |].
    apply in_map. apply range_In. exact Hc.
Qed.

Lemma window_length (start_row end_row start_col end_col : Z) :
  List.length (Map.window start_row end_row start_col end_col)
  = (Z.to_nat (end_row - start_row) * Z.to_nat (end_col - start_col))%nat.
Proof.
  unfold Map.window. rewrite <- range_length.
  induction (Map.range start_row end_row) as [| r rows IH]; simpl; [reflexivity |].
  rewrite length_app, length_map, range_length, IH. reflexivity.
Qed.

Lemma start_index_nonneg (camera_offset : Py.num) (start : Z) :
  Map.start_index camera_offset = Ok start -> 0 <= start.
Proof.
  unfold Map.start_index. intros H. bind_inv H. bind_inv H.
  inversion H. lia.
Qed.

Section Draw.

Variable md : map_data.
Variable self : Map.t.
Variables camera_offset_x camera_offset_y : Py.num.

Lemma draw_cell_made (r c : Z) (made : list Map.blit) :
  Map.draw_cell md self camera_offset_x camera_offset_y r c = Ok made ->
  (List.length made <= 1)%nat /\
  forall b, In b made -> blit_of_cell md self camera_offset_x camera_offset_y r c b.
Proof.
  unfold Map.draw_cell. intros H.
  bind_inv H. rename a into tile_code, Ha into Htile.
  bind_inv H. rename a into x, Ha into Hx.
  bind_inv H. rename a into y, Ha into Hy.
  destruct (Map.assets_get (Map.load_map_tiles md) tile_code) as [img |] eqn:Himg;
    inversion H; subst made; simpl.
  - split; [lia |]. intros b [<- | []].
    exists tile_code, img, x, y. auto.
  - split; [lia | contradiction].
Qed.

Lemma draw_cell_sprite (r c : Z) (b : Map.blit) :
  blit_of_cell md self camera_offset_x camera_offset_y r c b ->
  Map.draw_cell md self camera_offset_x camera_offset_y r c = Ok [b].
Proof.
  intros (tile_code & img & x & y & Htile & Himg & Hx & Hy & ->).
  unfold Map.draw_cell. rewrite Htile. cbn [bind]. rewrite Hx. cbn [bind].
  rewrite Hy. cbn [bind]. rewrite Himg. reflexivity.
Qed.

Lemma draw_cells_In (cells : list (Z * Z)) (b : Map.blit) :
  In b (fst (Map.draw_cells md self camera_offset_x camera_offset_y cells)) ->
  exists r c, In (r, c) cells /\
              blit_of_cell md self camera_offset_x camera_offset_y r c b.
Proof.
  induction cells as [| [r c] cells IH]; simpl; [contradiction |].
  destruct (Map.draw_cell md self camera_offset_x camera_offset_y r c)
    as [made | e] eqn:Hcell; [| contradiction].
  destruct (Map.draw_cells md self camera_offset_x camera_offset_y cells)
    as [rest stopped]. simpl in *.
  intros Hin. apply in_app_or in Hin. destruct Hin as [Hin | Hin].
  - exists r, c. split; [left; reflexivity |].
    apply (proj2 (draw_cell_made r c made Hcell)). exact Hin.
  - destruct (IH Hin) as (r' & c' & Hin' & Hb). exists r', c'. auto.
Qed.

Lemma draw_cells_length (cells : list (Z * Z)) :
  (List.length (fst (Map.draw_cells md self camera_offset_x camera_offset_y cells))
   <= List.length cells)%nat.
Proof.
  induction cells as [| [r c] cells IH]; simpl; [lia |].
  destruct (Map.draw_cell md self camera_offset_x camera_offset_y r c)
    as [made | e] eqn:Hcell; [| simpl; lia].
  destruct (Map.draw_cells md self camera_offset_x camera_offset_y cells)
    as [rest stopped]. simpl in *.
  rewrite length_app.
  pose proof (proj1 (draw_cell_made r c made Hcell)). lia.
Qed.

Lemma draw_cells_completed (cells : list (Z * Z)) (r c : Z) (b : Map.blit) :
  snd (Map.draw_cells md self camera_offset_x camera_offset_y cells) = None ->
  In (r, c) cells ->
  blit_of_cell md self camera_offset_x camera_offset_y r c b ->
  In b (fst (Map.draw_cells md self camera_offset_x camera_offset_y cells)).
Proof.
  induction cells as [| [r' c'] cells IH]; simpl; [contradiction |].
  destruct (Map.draw_cell md self camera_offset_x camera_offset_y r' c')
    as [made | e] eqn:Hcell; [| discriminate].
  destruct (Map.draw_cells md self camera_offset_x camera_offset_y cells)
    as [rest stopped]. simpl in *.
  intros Hdone [Heq | Hin] Hb; apply in_or_app.
  - inversion Heq; subst r' c'. left.
    rewrite (draw_cell_sprite r c b Hb) in Hcell. inversion Hcell. left. reflexivity.
  - right. apply IH; assumption.
Qed.

Lemma draw_cells_stopped (cells : list (Z * Z)) (e : exn) :
  snd (Map.draw_cells md self camera_offset_x camera_offset_y cells) = Some e ->
  exists r c, In (r, c) cells /\
              Map.draw_cell md self camera_offset_x camera_offset_y r c = Raise e.
Proof.
  induction cells as [| [r c] cells IH]; simpl; [discriminate |].
  destruct (Map.draw_cell md self camera_offset_x camera_offset_y r c)
    as [made | e'] eqn:Hcell.
  - destruct (Map.draw_cells md self camera_offset_x camera_offset_y cells)
      as [rest stopped]. simpl in *.
    intros Hs. destruct (IH Hs) as (r' & c' & Hin & Hr). exists r', c'. auto.
  - simpl. intros Hs. inversion Hs; subst e'. exists r, c. auto.
Qed.

(** X15. Whatever happens later in the call, every blit [Map.draw] makes
    is the sprite of a cell inside the grid, placed at that cell's pixel
    origin plus the camera offset, and a call makes at most
    [rows_visible * cols_visible] = 336 blits, however large the map. *)
Theorem draw_blits_visible_cells :
  (List.length (fst (Map.draw md self camera_offset_x camera_offset_y)) <= 336)%nat /\
  forall b : Map.blit,
    In b (fst (Map.draw md self camera_offset_x camera_offset_y)) ->
    exists r c,
      0 <= r < Map.height self /\ 0 <= c < Map.width self /\
      blit_of_cell md self camera_offset_x camera_offset_y r c b.
Proof.
  unfold Map.draw.
  destruct (Map.start_index camera_offset_y) as [start_row | e] eqn:Hrow;
    [| split; [simpl; lia | contradiction]].
  destruct (Map.start_index camera_offset_x) as [start_col | e] eqn:Hcol;
    [| split; [simpl; lia | contradiction]].
  apply start_index_nonneg in Hrow. apply start_index_nonneg in Hcol.
  cbv zeta. split.
  - eapply Nat.le_trans; [apply draw_cells_length |].
    rewrite window_length.
    assert (Hr : (Z.to_nat (Z.min (Map.height self) (start_row + Map.rows_visible)
                            - start_row) <= 16)%nat).
    { unfold Map.rows_visible, SCREEN_HEIGHT, TILE_SIZE.
      change (480 / 32 + 1) with 16. lia. }
    assert (Hc : (Z.to_nat (Z.min (Map.width self) (start_col + Map.cols_visible)
                            - start_col) <= 21)%nat).
    { unfold Map.cols_visible, SCREEN_WIDTH, TILE_SIZE.
      change (640 / 32 + 1) with 21. lia. }
    change 336%nat with (16 * 21)%nat. apply Nat.mul_le_mono; assumption.
  - intros b Hin. apply draw_cells_In in Hin.
    destruct Hin as (r & c & Hcell & Hb). apply window_In in Hcell.
    exists r, c. split; [lia |]. split; [lia | exact Hb].
Qed.

(** X16. A call of [Map.draw] that completes has drawn exactly the cells
    of its window that have a sprite: rows from [start_row] up to 16
    rows further and columns from [start_col] up to 21 columns further,
    cut at the edges of the grid, where the two starts are
    [max(0, floor(-camera_offset / TILE_SIZE))]. *)
Theorem draw_completed_window :
  snd (Map.draw md self camera_offset_x camera_offset_y) = None ->
  exists start_row start_col,
    Map.start_index camera_offset_y = Ok start_row /\
    Map.start_index camera_offset_x = Ok start_col /\
    forall b : Map.blit,
      In b (fst (Map.draw md self camera_offset_x camera_offset_y)) <->
      exists r c,
        start_row <= r < Z.min (Map.height self) (start_row + 16) /\
        start_col <= c < Z.min (Map.width self) (start_col + 21) /\
        blit_of_cell md self camera_offset_x camera_offset_y r c b.
Proof.
  unfold Map.draw.
  destruct (Map.start_index camera_offset_y) as [start_row | e] eqn:Hrow;
    [| discriminate].
  destruct (Map.start_index camera_offset_x) as [start_col | e] eqn:Hcol;
    [| discriminate].
  cbv zeta. intros Hdone. exists start_row, start_col.
  split; [reflexivity |]. split; [reflexivity |].
  intros b. split.
  - intros Hin. apply draw_cells_In in Hin.
    destruct Hin as (r & c & Hcell & Hb). apply window_In in Hcell.
    exists r, c. split; [exact (proj1 Hcell) |]. split; [exact (proj2 Hcell) | exact Hb].
  - intros (r & c & Hr & Hc & Hb).
    apply (draw_cells_completed _ r c b Hdone); [| exact Hb].
    apply window_In. split; assumption.
Qed.

End Draw.

Lemma draw_completed_window_witness :
  Map.start_index (Py.PFloat (Py.lit (-60))) = Ok 1 /\
  Map.start_index (Py.PFloat (Py.lit (-80))) = Ok 2 /\
  forall b : Map.blit,
    In b (fst (Map.draw sample_data large_map
                 (Py.PFloat (Py.lit (-80))) (Py.PFloat (Py.lit (-60))))) <->
    exists r c,
      1 <= r < Z.min 20 (1 + 16) /\ 2 <= c < Z.min 30 (2 + 21) /\
      blit_of_cell sample_data large_map
        (Py.PFloat (Py.lit (-80))) (Py.PFloat (Py.lit (-60))) r c b.
Proof.
  destruct (draw_completed_window sample_data large_map
              (Py.PFloat (Py.lit (-80))) (Py.PFloat (Py.lit (-60))))
    as (start_row & start_col & Hrow & Hcol & Hiff).
  - vm_compute. reflexivity.
  - vm_compute in Hrow. vm_compute in Hcol.
    inversion Hrow; subst start_row. inversion Hcol; subst start_col.
    split; [vm_compute; reflexivity |]. split; [vm_compute; reflexivity |].
    exact Hiff.
Defined.

(** *** What can stop a call *)

Lemma to_float_raises (a : Py.num) (e : exn) :
  Py.to_float a = Raise e -> e = OverflowError.
Proof.
  destruct a as [z | f]; simpl; [| discriminate].
  unfold Py.float_of_int.
  destruct (binary_normalize Py.prec Py.emax z 0 false);
    intros H; inversion H; reflexivity.
Qed.

Lemma add_raises (a b : Py.num) (e : exn) :
  Py.add a b = Raise e -> e = OverflowError.
Proof.
  unfold Py.add, Py.arith.
  destruct a as [x | x]; destruct b as [y | y]; try discriminate;
    intros H;
    repeat match type of H with
      | bind ?c _ = Raise _ =>
          let Hc := fresh "Hc" in
          destruct c eqn:Hc; cbn [bind] in H;
          [| inversion H; subst; eapply to_float_raises; eassumption]
      end;
    discriminate H.
Qed.

Lemma div_tile_raises (a : Py.num) (e : exn) :
  Py.div a (Py.PInt TILE_SIZE) = Raise e -> e = OverflowError.
Proof.
  destruct a as [z | f]; [| simpl; discriminate].
  - cbn [Py.div]. unfold Py.int_truediv.
    change (TILE_SIZE =? 0) with false. cbv iota.
    destruct (z =? 0); [discriminate |].
    match goal with
    | |- context [SFdiv ?p ?q ?x ?y] => destruct (SFdiv p q x y)
    end; intros H; inversion H; reflexivity.
Qed.

Lemma math_floor_raises (a : Py.num) (e : exn) :
  Py.math_floor a = Raise e -> e = ValueError \/ e = OverflowError.
Proof.
  destruct a as [z | [s | s | | s m ex]]; simpl; intros H; inversion H; auto.
Qed.

Lemma start_index_raises (camera_offset : Py.num) (e : exn) :
  Map.start_index camera_offset = Raise e -> e = ValueError \/ e = OverflowError.
Proof.
  unfold Map.start_index. intros H.
  destruct (Py.div (Py.neg camera_offset) (Py.PInt TILE_SIZE)) as [q | e'] eqn:Hq;
    cbn [bind] in H.
  - destruct (Py.math_floor (Py.PFloat q)) as [f | e'] eqn:Hf; cbn [bind] in H;
      [discriminate |].
    inversion H; subst e'. eapply math_floor_raises. exact Hf.
  - inversion H; subst e'. right. eapply div_tile_raises. exact Hq.
Qed.

(** X17. On a well-formed map [Map.draw] never fails on a missing cell:
    the only exceptions that can stop a call are the [ValueError] and
    [OverflowError] that an offset without a finite value, or too large
    for a float, raises in the arithmetic. *)
Theorem draw_never_index_error (md : map_data) (self : Map.t)
        (camera_offset_x camera_offset_y : Py.num) (e : exn) :
  well_formed self ->
  snd (Map.draw md self camera_offset_x camera_offset_y) = Some e ->
  e = ValueError \/ e = OverflowError.
Proof.
  intros Hwf. unfold Map.draw.
  destruct (Map.start_index camera_offset_y) as [start_row | e'] eqn:Hrow.
  2: { simpl. intros H. inversion H; subst e'.
       eapply start_index_raises. exact Hrow. }
  destruct (Map.start_index camera_offset_x) as [start_col | e'] eqn:Hcol.
  2: { simpl. intros H. inversion H; subst e'.
       eapply start_index_raises. exact Hcol. }
  apply start_index_nonneg in Hrow. apply start_index_nonneg in Hcol.
  cbv zeta. intros Hstop. apply draw_cells_stopped in Hstop.
  destruct Hstop as (r & c & Hin & Hcell). apply window_In in Hin.
  right. unfold Map.draw_cell in Hcell.
  destruct (tile_defined self c r Hwf) as [tile_code Htile]; [lia | lia |].
  rewrite Htile in Hcell. cbn [bind] in Hcell.
  destruct (Py.add (Py.PInt (c * TILE_SIZE)) camera_offset_x) as [x | e'] eqn:Hx;
    cbn [bind] in Hcell.
  2: { inversion Hcell; subst e'. eapply add_raises. exact Hx. }
  destruct (Py.add (Py.PInt (r * TILE_SIZE)) camera_offset_y) as [y | e'] eqn:Hy;
    cbn [bind] in Hcell.
  2: { inversion Hcell; subst e'. eapply add_raises. exact Hy. }
  destruct (Map.assets_get (Map.load_map_tiles md) tile_code); discriminate Hcell.
Qed.

Lemma draw_never_index_error_witness :
  Map.draw sample_data sample_map (Py.PFloat S754_nan) (Py.PInt 160)
  = ([], Some ValueError) /\
  (ValueError = ValueError \/ ValueError = OverflowError).
Proof.
  assert (Hstop : Map.draw sample_data sample_map (Py.PFloat S754_nan) (Py.PInt 160)
                  = ([], Some ValueError)) by (vm_compute; reflexivity).
  split; [exact Hstop |].
  refine (draw_never_index_error sample_data sample_map
            (Py.PFloat S754_nan) (Py.PInt 160) ValueError
            well_formed_sample_map _).
  rewrite Hstop. reflexivity.
Defined.

(** *** Which tiles have a sprite *)

Lemma assets_get_set (d : list (Z * string)) (k k2 : Z) (v : string) :
  Map.assets_get (Map.assets_set d k v) k2
  = if k =? k2 then Some v else Map.assets_get d k2.
Proof.
  induction d as [| [k' v'] d IH]; simpl.
  - reflexivity.
  - destruct (Z.eqb_spec k' k) as [-> | Hne]; simpl.
    + destruct (k =? k2); reflexivity.
    + rewrite IH. destruct (Z.eqb_spec k' k2) as [-> | Hne2]; [| reflexivity].
      destruct (Z.eqb_spec k k2); [congruence | reflexivity].
Qed.

Lemma assets_get_fold (entries d : list (Z * string)) (k : Z) :
  Map.assets_get
    (fold_left (fun sprites entry => Map.assets_set sprites (fst entry) (snd entry))
       entries d) k <> None
  <-> In k (map fst entries) \/ Map.assets_get d k <> None.
Proof.
  revert d. induction entries as [| [k' v'] entries IH]; intros d; simpl.
  - tauto.
  - rewrite IH, assets_get_set.
    destruct (Z.eqb_spec k' k) as [-> | Hne].
    + split; [auto |]. intros _. right. discriminate.
    + tauto.
Qed.

Lemma assets_keys_set (d : list (Z * string)) (k k2 : Z) (v : string) :
  In k2 (map fst (Map.assets_set d k v)) <-> k2 = k \/ In k2 (map fst d).
Proof.
  induction d as [| [k' v'] d IH]; simpl.
  - intuition congruence.
  - destruct (Z.eqb_spec k' k) as [-> | Hne]; simpl.
    + intuition congruence.
    + rewrite IH. intuition congruence.
Qed.

(** X18. The sprite table that [load_map_tiles] builds has a sprite for
    a tile code exactly when the code is one of the five codes of
    [TILE_ASSETS]; these are the tiles [Map.draw] blits, any other code
    is skipped. *)
Theorem sprite_iff_known_code (md : map_data) (tile_code : Z) :
  Map.assets_get (Map.load_map_tiles md) tile_code <> None <->
  tile_code = GRASS md \/ tile_code = WALL md \/ tile_code = STAIRS md \/
  tile_code = DOOR md \/ tile_code = SPAWN md.
Proof.
  unfold Map.load_map_tiles. rewrite assets_get_fold.
  unfold Map.TILE_ASSETS. rewrite !assets_keys_set. simpl.
  intuition congruence.
Qed.

(** ** The shape of a constructed map *)

(** X19. The map that [Map.__init__] builds from a named grid is well
    formed exactly when the grid is rectangular: with rows of different
    lengths the stored width is not the length of every row, which is
    what lets the collision test and the renderer index past a row. *)
Theorem init_well_formed_iff_rectangular (md : map_data) (map_name : string)
        (pf : platform) (m : Map.t) :
  snd (Map.__init__ pf md map_name) = Ok m ->
  (well_formed m <-> rectangular (Map.map_array m)) /\
  Map.getitem (MAP_COLLECTION md) map_name = Ok (Map.map_array m) /\
  1 <= Map.height m.
Proof.
  unfold Map.__init__. intros H.
  destruct (Map.getitem (MAP_COLLECTION md) map_name) as [grid | e];
    [| discriminate].
  destruct grid as [| row0 rows]; [discriminate |].
  destruct (Map.load_map_tiles_run pf md) as [lines [tile_sprites | e]];
    cbn [snd bind] in H; [| discriminate].
  inversion H; subst m; clear H. cbn [Map.map_array Map.height Map.width].
  split; [| split; [reflexivity | simpl; lia]].
  unfold well_formed, rectangular. cbn [Map.map_array Map.height Map.width].
  rewrite Forall_forall. split.
  - intros [_ Hrows] row1 row2 H1 H2.
    apply Hrows in H1. apply Hrows in H2. lia.
  - intros Hrect. split; [reflexivity |].
    intros row Hrow. f_equal. apply Hrect; [left; reflexivity | exact Hrow].
Qed.

Lemma init_well_formed_iff_rectangular_witness :
  ~ well_formed {| Map.map_array := [[1; 1; 1]; [1; 0]; [1]];
                   Map.height := 3; Map.width := 3 |}.
Proof.
  intros Hwf.
  apply (proj1 (init_well_formed_iff_rectangular ragged_data "map1" all_images
                  _ eq_refl))
    in Hwf.
  specialize (Hwf [1; 1; 1] [1; 0] (or_introl eq_refl)
                (or_intror (or_introl eq_refl))).
  discriminate Hwf.
Defined.
